(** * Rice-leaf classifier: the inference pipeline of [app/(tabs)/index.tsx]

    A shallow embedding of the request handlers of the application
    ([handleImageResult], [analyzeImage], [addToHistory]) and of the
    JavaScript library functions they call, followed by the properties of
    the specification that were checked against them. *)

From Stdlib Require Import ZArith QArith Qround Qabs Strings.Byte Ascii String Lia Lqa.
From stdpp Require Import base option list strings gmap pretty.
From Equations Require Import Equations.

Local Open Scope string_scope.
Local Open Scope list_scope.
Local Open Scope Z_scope.

(* ===================================================================== *)
(** * JavaScript values *)
(* ===================================================================== *)

Module JS.

(** A JavaScript Number, kept as its exact value.  Every number the program
    computes with starts as an element of a [Uint8Array] or of a
    [Float32Array]; the values are therefore rationals, the two infinities
    and NaN.  The two zeros are not told apart: the program compares
    numbers with [>] and [===] and prints them with [toFixed], and none of
    the three distinguishes [-0] from [+0]. *)
Inductive number : Type :=
| NaN
| PInf
| NInf
| Num (q : Q).

Definition is_nan (x : number) : bool :=
  match x with NaN => true | _ => false end.

(** [x > y] on Numbers: false as soon as one side is NaN. *)
Definition gt (x y : number) : bool :=
  match x, y with
  | NaN, _ | _, NaN => false
  | PInf, PInf => false
  | PInf, _ => true
  | NInf, _ => false
  | Num _, PInf => false
  | Num _, NInf => true
  | Num a, Num b => negb (Qle_bool a b)
  end.

(** [x === y] on Numbers: NaN is equal to nothing, itself included. *)
Definition strict_eq (x y : number) : bool :=
  match x, y with
  | PInf, PInf => true
  | NInf, NInf => true
  | Num a, Num b => Qeq_bool a b
  | _, _ => false
  end.

(** [Math.max] on the arguments it received: the scan of ECMA-262,
    21.3.2.24.  The running maximum starts at -Infinity, and a NaN
    argument makes the result NaN.  (Whether a call [Math.max(...values)]
    gets that far is [Math_max_call], below.) *)
Fixpoint max_scan (highest : number) (values : list number) : number :=
  match values with
  | [] => highest
  | x :: rest =>
      if is_nan x then NaN
      else max_scan (if gt x highest then x else highest) rest
  end.

Definition Math_max (values : list number) : number := max_scan NInf values.

(** [array.indexOf(searchElement)]: the first index whose element is
    strictly equal to the searched one, -1 when there is none. *)
Fixpoint indexOf_from (k : Z) (elements : list number) (searchElement : number) : Z :=
  match elements with
  | [] => -1
  | x :: rest =>
      if strict_eq x searchElement then k
      else indexOf_from (k + 1) rest searchElement
  end.

Definition indexOf (elements : list number) (searchElement : number) : Z :=
  indexOf_from 0 elements searchElement.

(** [array[index]] on an ordinary array: [None] stands for [undefined],
    which is what an index outside the array (a negative one included)
    reads. *)
Definition array_get {A : Type} (array : list A) (index : Z) : option A :=
  if 0 <=? index then array !! Z.to_nat index else None.

(** [x * y] for a finite [y].  The scores are binary32 values widened to
    binary64, and the only multiplier in the program is 100: the product
    of a 24-bit significand by 100 fits the 53 bits of a binary64, so the
    multiplication is exact. *)
Definition mul (x : number) (y : Q) : number :=
  match x with
  | NaN => NaN
  | PInf => if Qle_bool y 0 then (if Qeq_bool y 0 then NaN else NInf) else PInf
  | NInf => if Qle_bool y 0 then (if Qeq_bool y 0 then NaN else PInf) else NInf
  | Num q => Num (q * y)
  end.

(** The decimal digits of [n] with no leading zero, ["0"] for zero. *)
Definition digits (n : Z) : string := pretty (Z.to_N n).

(** [x.toFixed(2)], ECMA-262, 21.1.3.3, with [fractionDigits] = 2.

    - a number that is not finite prints as [Number::toString] prints it;
    - the sign is split off;
    - from 10^21 on the result is [ToString(x)], whose digits depend on
      the binary64 neighbours of [x]: that printer is a parameter;
    - otherwise [n] is the integer for which [n / 100 - x] is closest to
      zero, the larger one when there are two, and its digits are padded
      to three and split before the last two. *)
Definition toFixed_n (x : Q) : Z := Qfloor (x * 100 + (1 # 2)).

Definition pad_to_3 (m : string) : string :=
  let k := String.length m in
  if (k <=? 2)%nat then String.string_of_list_ascii (replicate (3 - k)%nat "0"%char) ++ m else m.

Definition split_fraction (m : string) : string :=
  let k := String.length m in
  substring 0 (k - 2) m ++ "." ++ substring (k - 2) 2 m.

Definition toFixed2 (Number_toString : Q -> string) (x : number) : string :=
  match x with
  | NaN => "NaN"
  | PInf => "Infinity"
  | NInf => "-Infinity"
  | Num q =>
      let s := if Qlt_le_dec q 0 then "-" else EmptyString in
      let x := Qabs q in
      let m :=
        if Qle_bool (10 ^ 21) x then Number_toString x
        else split_fraction (pad_to_3 (digits (toFixed_n x))) in
      s ++ m
  end.

(** The conversion of a byte of a [Uint8Array] to a Number: exact. *)
Definition of_byte (b : byte) : number := Num (inject_Z (Z.of_N (Byte.to_N b))).

(** [ToNumber] of what reading a typed array gives: the element, or
    [undefined] outside the array, which converts to NaN. *)
Definition to_number (element : option byte) : number :=
  match element with
  | Some b => of_byte b
  | None => NaN
  end.

End JS.

Import JS.

(* ===================================================================== *)
(** * Tensor encoder: step 3 of [analyzeImage] *)
(* ===================================================================== *)

(** [new Float32Array(224 * 224 * 3)]: that many zeros. *)
Definition TENSOR_LENGTH : nat := 224 * 224 * 3.

Definition new_Float32Array (length : nat) : list number :=
  replicate length (Num 0).

(** The body of the loop: the three stores
    [float32Data[p++] = rawData.data[i]], [... = rawData.data[i + 1]] and
    [... = rawData.data[i + 2]].  A store into a typed array at an index
    outside it is dropped, which is what the list update does; a read
    outside [rawData.data] gives [undefined]. *)
Definition store_pixel (data : list byte) (i p : nat) (float32Data : list number)
  : list number :=
  let float32Data := <[p := to_number (data !! i)]> float32Data in
  let float32Data := <[(p + 1)%nat := to_number (data !! (i + 1)%nat)]> float32Data in
  let float32Data := <[(p + 2)%nat := to_number (data !! (i + 2)%nat)]> float32Data in
  float32Data.

(** The loop [for (let i = 0; i < rawData.data.length; i += 4)]. *)
Equations? encode_loop (data : list byte) (i p : nat) (float32Data : list number)
  : list number by wf (length data - i)%nat lt :=
  encode_loop data i p float32Data with decide (i < length data)%nat => {
    | left _ => encode_loop data (i + 4) (p + 3) (store_pixel data i p float32Data);
    | right _ => float32Data }.
Proof. lia. Qed.

Definition encode (data : list byte) : list number :=
  encode_loop data 0 0 (new_Float32Array TENSOR_LENGTH).

(* ===================================================================== *)
(** * Exceptions and promises *)
(* ===================================================================== *)

(** A thrown value, or the reason of a rejected promise. *)
Inductive error : Type :=
| Error (message : string).

Definition message_of (e : error) : string :=
  match e with Error message => message end.

(** A computation that returns or throws; an awaited promise that is
    fulfilled or rejected. *)
Definition outcome (A : Type) : Type := error + A.

Definition throw {A : Type} (e : error) : outcome A := inl e.

#[global] Instance outcome_ret : MRet outcome := λ A x, inr x.
#[global] Instance outcome_bind : MBind outcome := λ A B f m,
  match m with
  | inl e => inl e
  | inr x => f x
  end.

(** [try { body } catch (error) { handler }] *)
Definition try_catch {A : Type} (body : outcome A) (handler : error → A) : A :=
  match body with
  | inl e => handler e
  | inr x => x
  end.

(* ===================================================================== *)
(** * Constants of the module *)
(* ===================================================================== *)

Definition LABELS : list string :=
  [ "Bacterial Leaf Blight";
    "Brown Spot";
    "Healthy Rice Leaf";
    "Leaf Blast";
    "Leaf Scald";
    "NOT_A_RICE_LEAF";
    "Sheath Blight" ].

(** The own properties of the object literal [DISEASE_ADVICE], whose type
    is [{ [key: string]: string }]. *)
Definition DISEASE_ADVICE : gmap string string :=
  list_to_map
    [ ("Bacterial Leaf Blight", "⚠️ Treatment: Use copper-based sprays. Avoid excessive Nitrogen.");
      ("Brown Spot", "⚠️ Treatment: Improve soil fertility (Potassium/Calcium). Treat seeds.");
      ("Leaf Blast", "⚠️ Treatment: Apply Tricyclazole. Maintain water level.");
      ("Leaf Scald", "⚠️ Treatment: Use clean seeds. Avoid high Nitrogen.");
      ("Sheath Blight", "⚠️ Treatment: Apply Azoxystrobin. Reduce plant density.");
      ("Healthy Rice Leaf", "✅ Good News: Your crop looks healthy!");
      ("NOT_A_RICE_LEAF", "❓ Unknown: Please try a clearer photo.") ].

(* ===================================================================== *)
(** * Result interpreter and advice lookup *)
(* ===================================================================== *)

(** [resultData]: [label] is [LABELS[maxIndex]], which is [undefined]
    ([None]) when the index is outside the vocabulary. *)
Record Diagnosis : Type := {
  label : option string;
  confidence : string
}.

(** The call [Math.max(...values)] passes one argument per element.  An
    engine takes only so many arguments in a call and throws a RangeError
    beyond; [argument_limit] is that number, the engine's own. *)
Definition Math_max_call (argument_limit : N) (values : list number) : outcome number :=
  if (N.of_nat (length values) <=? argument_limit)%N then mret (Math_max values)
  else throw (Error "RangeError").

(** Lines 160 to 169 of [analyzeImage] once the call of [Math.max] has
    returned: the diagnosis.  [Array.from] of a [Float32Array] keeps the
    values. *)
Definition interpret (Number_toString : Q → string) (probabilities : list number)
  : Diagnosis :=
  let probArray := probabilities in
  let maxScore := Math_max probArray in
  let maxIndex := indexOf probArray maxScore in
  let label := array_get LABELS maxIndex in
  {| label := label;
     confidence := toFixed2 Number_toString (mul maxScore 100) ++ "%" |}.

(** Lines 160 to 169 of [analyzeImage] as they run: the call of
    [Math.max] may throw, and nothing else does. *)
Definition interpret_call (argument_limit : N) (Number_toString : Q → string)
    (probabilities : list number) : outcome Diagnosis :=
  let probArray := probabilities in
  maxScore ← Math_max_call argument_limit probArray;
  let maxIndex := indexOf probArray maxScore in
  let label := array_get LABELS maxIndex in
  mret {| label := label;
          confidence := toFixed2 Number_toString (mul maxScore 100) ++ "%" |}.

(** The key a value is turned into when it indexes an object. *)
Definition property_key (label : option string) : string :=
  default "undefined" label.

(** A string, [null] or [undefined] in a condition: the empty string is
    falsy as [null] and [undefined] are. *)
Definition truthy (value : option string) : option string :=
  match value with
  | None | Some EmptyString => None
  | Some s => Some s
  end.

(** [value || fallback] *)
Definition or_else (value : option string) (fallback : string) : string :=
  default fallback (truthy value).

(** The names that an object literal inherits from [Object.prototype]
    (ECMA-262, 20.1.3 and B.2.2): under each of them a property access
    finds a function, or for [__proto__] the prototype itself, never a
    string and always truthy. *)
Definition Object_prototype : list string :=
  [ "constructor"; "hasOwnProperty"; "isPrototypeOf"; "propertyIsEnumerable";
    "toLocaleString"; "toString"; "valueOf"; "__proto__";
    "__defineGetter__"; "__defineSetter__"; "__lookupGetter__"; "__lookupSetter__" ].

(** What [DISEASE_ADVICE[label] || fallback] evaluates to: a text, or the
    value inherited under the key. *)
Inductive advice_value : Type :=
| AdviceText (text : string)
| InheritedValue (name : string).

(** [DISEASE_ADVICE[label] || fallback] for any label.  The own
    properties are looked up first, then the prototype; a key found in
    neither reads [undefined], and the fallback is taken for [undefined]
    and for the empty string. *)
Definition advice_lookup (fallback : string) (label : option string) : advice_value :=
  let key := property_key label in
  match DISEASE_ADVICE !! key with
  | Some advice => AdviceText (or_else (Some advice) fallback)
  | None =>
      if bool_decide (key ∈ Object_prototype) then InheritedValue key
      else AdviceText fallback
  end.

(** [DISEASE_ADVICE[predictionData.label] || "Consult an expert."], in
    [addToHistory], for the labels of the program: those of [LABELS] and
    [undefined], for which [advice_lookup] gives this text. *)
Definition history_advice (label : option string) : string :=
  or_else (DISEASE_ADVICE !! property_key label) "Consult an expert.".

(** [DISEASE_ADVICE[prediction.label] || "Please consult an agricultural
    expert."], in the result card of [App], for the same labels. *)
Definition displayed_advice (label : option string) : string :=
  or_else (DISEASE_ADVICE !! property_key label) "Please consult an agricultural expert.".

(* ===================================================================== *)
(** * History *)
(* ===================================================================== *)

(** A value that [JSON.parse] returns or that [JSON.stringify] takes. *)
#[local] Unset Elimination Schemes.
Inductive jsval : Type :=
| JUndefined
| JNull
| JBool (b : bool)
| JNumber (x : number)
| JString (s : string)
| JArray (items : list jsval)
| JObject (properties : list (string * jsval)).
#[local] Set Elimination Schemes.

Definition of_label (label : option string) : jsval :=
  match label with
  | Some s => JString s
  | None => JUndefined
  end.

(** [newEntry] of [addToHistory]. *)
Definition newEntry (now localeNow : string) (predictionData : Diagnosis) (imageUri : string)
  : jsval :=
  JObject
    [ ("id", JString now);
      ("label", of_label (label predictionData));
      ("confidence", JString (confidence predictionData));
      ("imageUri", JString imageUri);
      ("date", JString localeNow);
      ("advice", JString (history_advice (label predictionData))) ].

(** A string is kept as its UTF-8 text, and iterating a string goes code
    point by code point: a byte that continues a code point (10xxxxxx)
    stays with the byte that starts it.  [code_point_groups] gives the
    continuation bytes that open the text, if any, and the code points
    after them. *)
Definition is_continuation (c : ascii) : bool :=
  match c with
  | Ascii _ _ _ _ _ _ false true => true
  | _ => false
  end.

Fixpoint code_point_groups (s : string) : string * list string :=
  match s with
  | EmptyString => (EmptyString, [])
  | String c rest =>
      let (pending, code_points) := code_point_groups rest in
      if is_continuation c then (String c pending, code_points)
      else (EmptyString, String c pending :: code_points)
  end.

Definition code_points (s : string) : list string :=
  match code_point_groups s with
  | (EmptyString, code_points) => code_points
  | (pending, code_points) => pending :: code_points
  end.

(** The elements that the spread [...value] yields: those of an array, the
    code points of a string; anything else [JSON.parse] can return is not
    iterable and the spread throws a TypeError. *)
Definition spread (value : jsval) : outcome (list jsval) :=
  match value with
  | JArray items => mret items
  | JString s => mret (JString <$> code_points s)
  | _ => throw (Error "TypeError: value is not iterable")
  end.

(** What lies outside the module: the image services, the file system,
    the JPEG decoder, the clock, the JSON codec and the faults of the
    key-value store, as they answer during one request. *)
Record Host : Type := {
  (** [ImageManipulator.manipulateAsync(uri, [resize 224 x 224], JPEG)]:
      the [uri] of the result. *)
  manipulateAsync : string → outcome string;
  (** [FileSystem.readAsStringAsync(uri, base64)] *)
  readAsStringAsync : string → outcome string;
  (** [jpeg.decode(Buffer.from(base64, 'base64'), ...)]: the [data] of the
      decoded image. *)
  jpeg_decode : string → outcome (list byte);
  (** [Number::toString] from 10^21 on *)
  Number_toString : Q → string;
  (** the number of arguments the engine takes in one call *)
  argument_limit : N;
  (** [Date.now().toString()] and [new Date().toLocaleString()] *)
  Date_now : string;
  Date_toLocaleString : string;
  JSON_parse : string → outcome jsval;
  JSON_stringify : jsval → string;
  (** the rejection of [AsyncStorage.getItem] and of
      [AsyncStorage.setItem], if they reject *)
  getItem_fault : option error;
  setItem_fault : option error
}.

Definition AsyncStorage_getItem (h : Host) (store : gmap string string) (key : string)
  : outcome (option string) :=
  match getItem_fault h with
  | Some e => throw e
  | None => mret (store !! key)
  end.

Definition AsyncStorage_setItem (h : Host) (store : gmap string string) (key value : string)
  : outcome (gmap string string) :=
  match setItem_fault h with
  | Some e => throw e
  | None => mret (<[key := value]> store)
  end.

(** [existingHistory ? JSON.parse(existingHistory) : []]: [null] and the
    empty string are falsy. *)
Definition parse_history (h : Host) (existingHistory : option string) : outcome jsval :=
  match truthy existingHistory with
  | None => mret (JArray [])
  | Some text => JSON_parse h text
  end.

(** [updatedHistory.slice(0, 20)] of [[newEntry, ...historyArray]]. *)
Definition updatedHistory (entry : jsval) (historyArray : list jsval) : list jsval :=
  entry :: historyArray.

Definition slice_0_20 (items : list jsval) : list jsval := take 20 items.

(** The [try] block of [addToHistory]: the store it leaves. *)
Definition addToHistory_try (h : Host) (predictionData : Diagnosis) (imageUri : string)
    (store : gmap string string) : outcome (gmap string string) :=
  let entry := newEntry (Date_now h) (Date_toLocaleString h) predictionData imageUri in
  existingHistory ← AsyncStorage_getItem h store "leaf_history";
  parsed ← parse_history h existingHistory;
  historyArray ← spread parsed;
  AsyncStorage_setItem h store "leaf_history"
    (JSON_stringify h (JArray (slice_0_20 (updatedHistory entry historyArray)))).

(* ===================================================================== *)
(** * The component [App] *)
(* ===================================================================== *)

(** The handle that [loadTensorflowModel] resolves to: [run] takes the
    input tensors and gives the output tensors. *)
Record TensorflowModel : Type := {
  run : list (list number) → outcome (list (list number))
}.

(** The state hooks of [App], and around them what its handlers act on:
    the alerts shown and the errors logged, oldest first, and the
    key-value store. *)
Record State : Type := {
  model : option TensorflowModel;
  selectedImage : option string;
  prediction : option Diagnosis;
  loading : bool;
  alerts : list (string * string);
  console : list string;
  storage : gmap string string
}.

Definition setSelectedImage (uri : option string) (st : State) : State :=
  {| model := model st; selectedImage := uri; prediction := prediction st;
     loading := loading st; alerts := alerts st; console := console st;
     storage := storage st |}.

Definition setPrediction (p : option Diagnosis) (st : State) : State :=
  {| model := model st; selectedImage := selectedImage st; prediction := p;
     loading := loading st; alerts := alerts st; console := console st;
     storage := storage st |}.

Definition setLoading (b : bool) (st : State) : State :=
  {| model := model st; selectedImage := selectedImage st; prediction := prediction st;
     loading := b; alerts := alerts st; console := console st;
     storage := storage st |}.

Definition Alert_alert (title message : string) (st : State) : State :=
  {| model := model st; selectedImage := selectedImage st; prediction := prediction st;
     loading := loading st; alerts := alerts st ++ [(title, message)];
     console := console st; storage := storage st |}.

Definition console_error (line : string) (st : State) : State :=
  {| model := model st; selectedImage := selectedImage st; prediction := prediction st;
     loading := loading st; alerts := alerts st; console := console st ++ [line];
     storage := storage st |}.

Definition set_storage (store : gmap string string) (st : State) : State :=
  {| model := model st; selectedImage := selectedImage st; prediction := prediction st;
     loading := loading st; alerts := alerts st; console := console st;
     storage := store |}.

(** What an image picker resolves to: cancelled, or the [uri] of
    [assets[0]]. *)
Inductive ImagePickerResult : Type :=
| Canceled
| Picked (uri : string).

Definition handleImageResult (picked : ImagePickerResult) (st : State) : State :=
  match picked with
  | Canceled => st
  | Picked uri => setPrediction None (setSelectedImage (Some uri) st)
  end.

(** [addToHistory]: its [try] block, and the [catch] that logs and lets
    nothing out.  The promise it returns is always fulfilled. *)
Definition addToHistory (h : Host) (predictionData : Diagnosis) (imageUri : string)
    (st : State) : State :=
  try_catch
    (store ← addToHistory_try h predictionData imageUri (storage st);
     mret (set_storage store st))
    (λ e, console_error ("Failed to save history: " ++ message_of e) st).

(** [Array.from(outputs[0])]: [outputs[0]] is [undefined] when the model
    returned no output, and [Array.from(undefined)] throws. *)
Definition first_output (outputs : list (list number)) : outcome (list number) :=
  match outputs !! 0%nat with
  | Some probabilities => mret probabilities
  | None => throw (Error "TypeError: undefined is not iterable")
  end.

(** The [try] block of [analyzeImage] up to [resultData], for the model
    and the image the call captured. *)
Definition analyzeImage_try (h : Host) (m : TensorflowModel) (image : string)
  : outcome Diagnosis :=
  manipResult ← manipulateAsync h image;
  base64 ← readAsStringAsync h manipResult;
  rawData ← jpeg_decode h base64;
  let float32Data := encode rawData in
  outputs ← run m [float32Data];
  probabilities ← first_output outputs;
  interpret_call (argument_limit h) (Number_toString h) probabilities.

(** A call of [analyzeImage] is asynchronous.  It runs in two turns of the
    event loop (more, which change nothing in between): up to its first
    [await], and from there to its end, with the [model] and the
    [selectedImage] of the render that created it.  Other handlers may run
    between the two. *)
Record Request : Type := {
  request_model : TensorflowModel;
  request_image : string
}.

(** The first turn: the guard [if (!model || !selectedImage)], and
    [setLoading(true)]. *)
Definition analyzeImage_begin (st : State) : State * option Request :=
  match model st, truthy (selectedImage st) with
  | Some m, Some image =>
      (setLoading true st, Some {| request_model := m; request_image := image |})
  | _, _ => (Alert_alert "Error" "Model not ready yet." st, None)
  end.

(** The later turns: the rest of [try], [catch] and [finally].
    [addToHistory] is started and not awaited; its effects are put here,
    right after [setPrediction]. *)
Definition analyzeImage_resume (h : Host) (r : Request) (st : State) : State :=
  let st :=
    match analyzeImage_try h (request_model r) (request_image r) with
    | inr resultData =>
        addToHistory h resultData (request_image r) (setPrediction (Some resultData) st)
    | inl e =>
        Alert_alert "Error" "Could not analyze image." (console_error (message_of e) st)
    end in
  setLoading false st.

(** A call of [analyzeImage] that nothing interleaves with. *)
Definition analyzeImage (h : Host) (st : State) : State :=
  match analyzeImage_begin st with
  | (st, Some r) => analyzeImage_resume h r st
  | (st, None) => st
  end.

(** The turns of the event loop that touch the state: a picker resolves,
    the "Diagnose Disease" button is pressed (it is disabled while
    [loading]), the analysis in flight runs to its end. *)
Inductive event : Type :=
| PickerResolved (picked : ImagePickerResult)
| DiagnosePressed
| AnalysisSettled (h : Host).

Definition turn (e : event) (sys : State * option Request) : State * option Request :=
  let (st, in_flight) := sys in
  match e with
  | PickerResolved picked => (handleImageResult picked st, in_flight)
  | DiagnosePressed =>
      if loading st then sys
      else
        match analyzeImage_begin st with
        | (st, Some r) => (st, Some r)
        | (st, None) => (st, in_flight)
        end
  | AnalysisSettled h =>
      match in_flight with
      | Some r => (analyzeImage_resume h r st, None)
      | None => sys
      end
  end.

Definition turns (events : list event) (sys : State * option Request)
  : State * option Request :=
  foldl (λ sys e, turn e sys) sys events.

(* ===================================================================== *)
(** * The earlier [App] (the second source file) *)
(* ===================================================================== *)

Module Legacy.

(** Lines 80 to 87 once the call of [Math.max] has returned: the index is
    searched in the [Float32Array] itself and the confidence is read back
    at that index; outside the array the read gives [undefined], whose
    product with 100 is NaN. *)
Definition interpret (Number_toString : Q → string) (probabilities : list number)
  : Diagnosis :=
  let maxIndex := indexOf probabilities (Math_max probabilities) in
  let confidence := default NaN (array_get probabilities maxIndex) in
  {| label := array_get LABELS maxIndex;
     confidence := toFixed2 Number_toString (mul confidence 100) ++ "%" |}.

(** The same lines as they run: the call [Math.max(...probabilities)] may
    throw. *)
Definition interpret_call (argument_limit : N) (Number_toString : Q → string)
    (probabilities : list number) : outcome Diagnosis :=
  maxScore ← Math_max_call argument_limit probabilities;
  let maxIndex := indexOf probabilities maxScore in
  let confidence := default NaN (array_get probabilities maxIndex) in
  mret {| label := array_get LABELS maxIndex;
          confidence := toFixed2 Number_toString (mul confidence 100) ++ "%" |}.

Record State : Type := {
  tflite_model : option TensorflowModel;
  imageUri : option string;
  result : option Diagnosis;
  isProcessing : bool;
  alerts : list (string * string);
  console : list string
}.

Definition pickImage (picked : ImagePickerResult) (st : State) : State :=
  match picked with
  | Canceled => st
  | Picked uri =>
      {| tflite_model := tflite_model st; imageUri := Some uri; result := None;
         isProcessing := isProcessing st; alerts := alerts st; console := console st |}
  end.

Definition analyzeImage_try (h : Host) (m : TensorflowModel) (image : string)
  : outcome Diagnosis :=
  manipResult ← manipulateAsync h image;
  base64 ← readAsStringAsync h manipResult;
  rawData ← jpeg_decode h base64;
  let float32Data := encode rawData in
  outputs ← run m [float32Data];
  probabilities ← first_output outputs;
  interpret_call (argument_limit h) (Number_toString h) probabilities.

(** [if (!tflite.model || !imageUri) return;] then the pipeline, with
    nothing interleaved. *)
Definition analyzeImage (h : Host) (st : State) : State :=
  match tflite_model st, truthy (imageUri st) with
  | Some m, Some image =>
      match analyzeImage_try h m image with
      | inr resultData =>
          {| tflite_model := tflite_model st; imageUri := imageUri st;
             result := Some resultData; isProcessing := false;
             alerts := alerts st; console := console st |}
      | inl e =>
          {| tflite_model := tflite_model st; imageUri := imageUri st;
             result := result st; isProcessing := false;
             alerts := alerts st ++ [("Error", "Could not analyze image.")];
             console := console st ++ [message_of e] |}
      end
  | _, _ => st
  end.

End Legacy.

(* ===================================================================== *)
(** * Notions used in the statements *)
(* ===================================================================== *)

(** A score vector with no NaN among its scores. *)
Definition no_NaN (values : list number) : Prop :=
  Forall (λ x, is_nan x = false) values.

(** One decimal digit as a string. *)
Definition digit (d : Z) : string := String (pretty_N_char (Z.to_N d)) EmptyString.

(** The specification's "rounded to two decimal places": [n] hundredths
    written with their integer part, a point and two decimals. *)
Definition two_decimal_places (n : Z) : string :=
  digits (n / 100) ++ "." ++ digit (n / 10 mod 10) ++ digit (n mod 10).

(** [n] is the integer nearest to [y], the larger one when [y] lies
    halfway between two integers. *)
Definition nearest_integer (n : Z) (y : Q) : Prop :=
  ∀ k : Z,
    (Qabs (inject_Z n - y) <= Qabs (inject_Z k - y))%Q
    ∧ ((Qabs (inject_Z n - y) == Qabs (inject_Z k - y))%Q → k ≤ n).

(** A printer for the numbers from 10^21 on, for the examples. *)
Definition sample_Number_toString : Q → string := λ _, "1e+21".

(** The score vectors of the examples.  [spec_scores] is the vector
    [[0.1, 0.05, 0.6, 0.1, 0.05, 0.05, 0.05]] of the specification in a
    [Float32Array]: each decimal is stored as the nearest binary32
    value. *)
Definition spec_scores : list number :=
  [ Num (13421773 # 134217728); Num (13421773 # 268435456);
    Num (10066330 # 16777216); Num (13421773 # 134217728);
    Num (13421773 # 268435456); Num (13421773 # 268435456);
    Num (13421773 # 268435456) ].

Definition tied_scores : list number :=
  [ Num (1 # 2); Num (1 # 2); Num 0; Num 0; Num 0; Num 0; Num 0 ].

Definition five_scores : list number :=
  [ Num (13421773 # 134217728); Num (13421773 # 268435456);
    Num (10066330 # 16777216); Num (13421773 # 134217728);
    Num (5033165 # 33554432) ].

Definition NaN_scores : list number :=
  [ NaN; Num 0; Num 0; Num 0; Num 0; Num 0; Num 0 ].

Definition infinite_scores : list number :=
  [ PInf; Num 0; Num 0; Num 0; Num 0; Num 0; Num 0 ].

(** A stage of the pipeline fails with [e]: the resize, the read, the
    decoding, the run of the model, the access to its first output or the
    interpretation, the stages before it having succeeded.  (The encoding
    has no way to fail.) *)
Definition stage_fails (h : Host) (m : TensorflowModel) (image : string) (e : error)
  : Prop :=
  manipulateAsync h image = inl e
  ∨ (∃ manipResult, manipulateAsync h image = inr manipResult
       ∧ (readAsStringAsync h manipResult = inl e
          ∨ ∃ base64, readAsStringAsync h manipResult = inr base64
              ∧ (jpeg_decode h base64 = inl e
                 ∨ ∃ rawData, jpeg_decode h base64 = inr rawData
                     ∧ (run m [encode rawData] = inl e
                        ∨ ∃ outputs, run m [encode rawData] = inr outputs
                            ∧ (first_output outputs = inl e
                               ∨ ∃ probabilities,
                                   first_output outputs = inr probabilities
                                   ∧ interpret_call (argument_limit h) (Number_toString h)
                                       probabilities = inl e))))).

(** A host and a model for the examples: every service answers, the
    decoder gives one red pixel for the image ["file:///a.jpg"] and one
    green pixel for any other, and the model tells the two apart by the
    first entry of the tensor. *)
Definition sample_host : Host := {|
  manipulateAsync := λ uri, inr uri;
  readAsStringAsync := λ uri, inr uri;
  jpeg_decode := λ base64,
    inr (if String.eqb base64 "file:///a.jpg"
         then ["255"; "000"; "000"; "255"]%byte
         else ["000"; "255"; "000"; "255"]%byte);
  Number_toString := sample_Number_toString;
  argument_limit := 65535;
  Date_now := "1700000000000";
  Date_toLocaleString := "11/14/2023, 10:13:20 PM";
  JSON_parse := λ _, inr (JArray []);
  JSON_stringify := λ _, "[]";
  getItem_fault := None;
  setItem_fault := None
|}.

Definition sample_model : TensorflowModel := {|
  run := λ inputs,
    match inputs with
    | [Num q :: _] => inr [if Qle_bool 128 q then spec_scores else tied_scores]
    | _ => inl (Error "input shape mismatch")
    end
|}.

(** The same host with a decoder that throws. *)
Definition broken_decoder_host : Host := {|
  manipulateAsync := manipulateAsync sample_host;
  readAsStringAsync := readAsStringAsync sample_host;
  jpeg_decode := λ _, inl (Error "SOI not found");
  Number_toString := Number_toString sample_host;
  argument_limit := argument_limit sample_host;
  Date_now := Date_now sample_host;
  Date_toLocaleString := Date_toLocaleString sample_host;
  JSON_parse := JSON_parse sample_host;
  JSON_stringify := JSON_stringify sample_host;
  getItem_fault := None;
  setItem_fault := None
|}.

(** The same host with a store that rejects every write. *)
Definition full_store_host : Host := {|
  manipulateAsync := manipulateAsync sample_host;
  readAsStringAsync := readAsStringAsync sample_host;
  jpeg_decode := jpeg_decode sample_host;
  Number_toString := Number_toString sample_host;
  argument_limit := argument_limit sample_host;
  Date_now := Date_now sample_host;
  Date_toLocaleString := Date_toLocaleString sample_host;
  JSON_parse := JSON_parse sample_host;
  JSON_stringify := JSON_stringify sample_host;
  getItem_fault := None;
  setItem_fault := Some (Error "database or disk is full")
|}.

(** The application once the model is loaded and before any image is
    chosen. *)
Definition ready_state : State := {|
  model := Some sample_model;
  selectedImage := None;
  prediction := None;
  loading := false;
  alerts := [];
  console := [];
  storage := ∅
|}.

(* ===================================================================== *)
(** * The other handlers and the rendering of [App] *)
(* ===================================================================== *)

Definition setModel (m : option TensorflowModel) (st : State) : State :=
  {| model := m; selectedImage := selectedImage st; prediction := prediction st;
     loading := loading st; alerts := alerts st; console := console st;
     storage := storage st |}.

(** The effect of lines 76 to 87.  It does something once [assets] is set
    and its first asset has a [localUri] ([localUri], already read, is
    [None] otherwise): [loadTensorflowModel] is called, and its promise
    either sets the model or logs the failure with [console.error].  The
    two [console.log] lines are not recorded: [console] holds the errors
    only. *)
Definition loadModel (localUri : option string)
    (loadTensorflowModel : string → outcome TensorflowModel) (st : State) : State :=
  match truthy localUri with
  | None => st
  | Some url =>
      match loadTensorflowModel url with
      | inr loadedModel => setModel (Some loadedModel) st
      | inl e => console_error ("Failed to load model: " ++ message_of e) st
      end
  end.

(** What the image services answer during one call of [pickImage] or of
    [takePhoto]: the promises of [launchImageLibraryAsync], of
    [requestCameraPermissionsAsync] (its [granted]) and of
    [launchCameraAsync]. *)
Record Pickers : Type := {
  launchImageLibraryAsync : outcome ImagePickerResult;
  requestCameraPermissionsAsync : outcome bool;
  launchCameraAsync : outcome ImagePickerResult
}.

(** [pickImage] and [takePhoto] catch nothing: when a promise they await
    is rejected they stop there, and the state is as it was. *)
Definition pickImage (p : Pickers) (st : State) : State :=
  match launchImageLibraryAsync p with
  | inr picked => handleImageResult picked st
  | inl _ => st
  end.

Definition takePhoto (p : Pickers) (st : State) : State :=
  match requestCameraPermissionsAsync p with
  | inl _ => st
  | inr false => Alert_alert "Permission Refused" "You need to allow camera access." st
  | inr true =>
      match launchCameraAsync p with
      | inr picked => handleImageResult picked st
      | inl _ => st
      end
  end.

(** What [App] returns, as far as the state decides it: the loading view
    while there is no model; otherwise the welcome card, the image card
    with its image and whether "Diagnose Disease" is disabled, and the
    result card with its confidence, label and advice. *)
Record MainView : Type := {
  welcomeCard : bool;
  imageCard : option (string * bool);
  resultCard : option (string * option string * string)
}.

Inductive View : Type :=
| LoadingView
| Main (v : MainView).

Definition render (st : State) : View :=
  match model st with
  | None => LoadingView
  | Some _ =>
      Main {|
        welcomeCard :=
          negb (bool_decide (is_Some (truthy (selectedImage st))))
          && negb (bool_decide (is_Some (prediction st)));
        imageCard := (λ uri, (uri, loading st)) <$> truthy (selectedImage st);
        resultCard :=
          (λ p, (confidence p, label p, displayed_advice (label p))) <$> prediction st
      |}
  end.


(** A model that rejects any input but one tensor of 150,528 entries, and
    answers as [sample_model] on those; a score vector of 8 scores whose
    maximum is the last. *)
Definition shape_checking_model : TensorflowModel := {|
  run := λ inputs,
    match inputs with
    | [tensor] =>
        if decide (length tensor = TENSOR_LENGTH) then run sample_model [tensor]
        else inl (Error "input shape mismatch")
    | _ => inl (Error "input shape mismatch")
    end
|}.

Definition eight_scores : list number :=
  [ Num 0; Num 0; Num 0; Num 0; Num 0; Num 0; Num 0; Num (1 # 2) ].

(** The sample host with a [JSON.parse] that reads every text as an empty
    object. *)
Definition object_history_host : Host := {|
  manipulateAsync := manipulateAsync sample_host;
  readAsStringAsync := readAsStringAsync sample_host;
  jpeg_decode := jpeg_decode sample_host;
  Number_toString := Number_toString sample_host;
  argument_limit := argument_limit sample_host;
  Date_now := Date_now sample_host;
  Date_toLocaleString := Date_toLocaleString sample_host;
  JSON_parse := λ _, inr (JObject []);
  JSON_stringify := JSON_stringify sample_host;
  getItem_fault := None;
  setItem_fault := None
|}.

(** The earlier [App] with the model loaded and an image selected, and
    the same with no model. *)
Definition Legacy_selected_state : Legacy.State := {|
  Legacy.tflite_model := Some sample_model;
  Legacy.imageUri := Some "file:///a.jpg";
  Legacy.result := None;
  Legacy.isProcessing := false;
  Legacy.alerts := [];
  Legacy.console := []
|}.

Definition Legacy_loading_state : Legacy.State := {|
  Legacy.tflite_model := None;
  Legacy.imageUri := Some "file:///a.jpg";
  Legacy.result := None;
  Legacy.isProcessing := false;
  Legacy.alerts := [];
  Legacy.console := []
|}.

(* ===================================================================== *)
(** * Properties of the tensor encoder *)
(* ===================================================================== *)

Section EncodeLoop.

Local Open Scope nat_scope.

Lemma encode_loop_step data i p float32Data :
  i < length data →
  encode_loop data i p float32Data
  = encode_loop data (i + 4) (p + 3) (store_pixel data i p float32Data).
Proof.
  intros Hi. rewrite encode_loop_equation_1.
  destruct (decide (i < length data)) as [?|?]; [reflexivity | contradiction].
Qed.

Lemma encode_loop_done data i p float32Data :
  length data ≤ i → encode_loop data i p float32Data = float32Data.
Proof.
  intros Hi. rewrite encode_loop_equation_1.
  destruct (decide (i < length data)) as [?|?]; [lia | reflexivity].
Qed.

Lemma store_pixel_length data i p float32Data :
  length (store_pixel data i p float32Data) = length float32Data.
Proof. unfold store_pixel. by rewrite !length_insert. Qed.

Lemma store_pixel_lookup_other data i p float32Data j :
  j < p ∨ p + 3 ≤ j →
  store_pixel data i p float32Data !! j = float32Data !! j.
Proof.
  intros Hj. unfold store_pixel.
  rewrite !list_lookup_insert_ne by lia. reflexivity.
Qed.

Lemma store_pixel_lookup data i p float32Data c :
  c < 3 → p + c < length float32Data →
  store_pixel data i p float32Data !! (p + c) = Some (to_number (data !! (i + c))).
Proof.
  intros Hc Hlen. unfold store_pixel.
  assert (c = 0 ∨ c = 1 ∨ c = 2) as [-> | [-> | ->]] by lia.
  - rewrite !Nat.add_0_r in *. rewrite !list_lookup_insert_ne by lia.
    by rewrite list_lookup_insert_eq by lia.
  - rewrite list_lookup_insert_ne by lia.
    by rewrite list_lookup_insert_eq by (rewrite length_insert; lia).
  - by rewrite list_lookup_insert_eq by (rewrite !length_insert; lia).
Qed.

(** The loop keeps the length of the array: a typed array never grows. *)
Lemma encode_loop_length data i p float32Data :
  length (encode_loop data i p float32Data) = length float32Data.
Proof.
  funelim (encode_loop data i p float32Data); [|reflexivity].
  match goal with IH : length _ = length _ |- _ => rewrite IH end.
  apply store_pixel_length.
Qed.

(** Entries below [p] are never written again. *)
Lemma encode_loop_lookup_below data i p float32Data j :
  j < p → encode_loop data i p float32Data !! j = float32Data !! j.
Proof.
  funelim (encode_loop data i p float32Data); [|reflexivity].
  intros Hj.
  match goal with IH : ∀ j, _ → _ !! _ = _ |- _ => rewrite IH by lia end.
  apply store_pixel_lookup_other. lia.
Qed.

(** Entries past the last pixel's are never written. *)
Lemma encode_loop_lookup_above data i p float32Data j :
  (∀ k, i + 4 * k < length data → p + 3 * k + 3 ≤ j) →
  encode_loop data i p float32Data !! j = float32Data !! j.
Proof.
  funelim (encode_loop data i p float32Data); [|reflexivity].
  intros Hj.
  match goal with IH : ∀ j, _ → _ !! _ = _ |- _ => rewrite IH end.
  - apply store_pixel_lookup_other.
    right. specialize (Hj 0). lia.
  - intros k Hk. specialize (Hj (S k)). lia.
Qed.

(** Pixel [k] counted from index [i], channel [c]: its byte is at
    [p + 3 * k + c], when that is inside the array. *)
Lemma encode_loop_lookup_pixel data i p float32Data k c :
  c < 3 → i + 4 * k < length data → p + 3 * k + c < length float32Data →
  encode_loop data i p float32Data !! (p + 3 * k + c)
  = Some (to_number (data !! (i + 4 * k + c))).
Proof.
  revert k.
  funelim (encode_loop data i p float32Data); [|intros; lia].
  intros k Hc Hk Hlen. destruct k as [|k].
  - rewrite Nat.mul_0_r, !Nat.add_0_r.
    rewrite encode_loop_lookup_below by lia.
    apply store_pixel_lookup; lia.
  - replace (p + 3 * S k + c) with (p + 3 + 3 * k + c) by lia.
    replace (i + 4 * S k + c) with (i + 4 + 4 * k + c) by lia.
    match goal with IH : ∀ _, _ |- _ => apply IH end;
      rewrite ?store_pixel_length; lia.
Qed.

End EncodeLoop.

Section Encode.

Local Open Scope nat_scope.

Lemma encode_length data : length (encode data) = TENSOR_LENGTH.
Proof.
  unfold encode, new_Float32Array.
  rewrite encode_loop_length. apply length_replicate.
Qed.

Lemma encode_lookup_pixel data k c :
  c < 3 → 4 * k < length data → 3 * k + c < TENSOR_LENGTH →
  encode data !! (3 * k + c) = Some (to_number (data !! (4 * k + c))).
Proof.
  intros Hc Hk Hlen. unfold encode.
  apply (encode_loop_lookup_pixel data 0 0 _ k c Hc Hk).
  unfold new_Float32Array. rewrite length_replicate. exact Hlen.
Qed.

Lemma encode_lookup_padding data j :
  j < TENSOR_LENGTH → (∀ k, 4 * k < length data → 3 * k + 3 ≤ j) →
  encode data !! j = Some (Num 0).
Proof.
  intros Hj Hk. unfold encode.
  rewrite encode_loop_lookup_above by exact Hk.
  unfold new_Float32Array. by apply lookup_replicate_2.
Qed.

Lemma TENSOR_LENGTH_value : Z.of_nat TENSOR_LENGTH = 150528%Z.
Proof. reflexivity. Qed.

Lemma TENSOR_LENGTH_pixels : TENSOR_LENGTH = 3 * (224 * 224).
Proof. unfold TENSOR_LENGTH. lia. Qed.

End Encode.

(** C1.  A 224 x 224 RGBA pixel buffer (224 * 224 * 4 bytes, row-major) is
    encoded as a tensor of exactly 150,528 entries; entry [3 * k + c] is
    channel [c] (R, G, B) of pixel [k], the byte's own value; and the
    tensor does not depend on the alpha bytes. *)
Theorem encode_rgb_224 (data : list byte) :
  length data = (224 * 224 * 4)%nat →
  Z.of_nat (length (encode data)) = 150528
  ∧ (∀ k c : nat, (k < 224 * 224)%nat → (c < 3)%nat →
       ∃ b : byte, data !! (4 * k + c)%nat = Some b
                   ∧ encode data !! (3 * k + c)%nat
                     = Some (Num (inject_Z (Z.of_N (Byte.to_N b)))))
  ∧ (∀ data' : list byte, length data' = length data →
       (∀ i : nat, (i mod 4 ≠ 3)%nat → data' !! i = data !! i) →
       encode data' = encode data).
Proof.
  intros Hlen.
  assert (Hpix : ∀ (d : list byte) (k c : nat), length d = length data →
            (k < 224 * 224)%nat → (c < 3)%nat →
            encode d !! (3 * k + c)%nat = Some (to_number (d !! (4 * k + c)%nat))).
  { intros d k c Hd Hk Hc. apply encode_lookup_pixel; [done| |].
    - rewrite Hd, Hlen. lia.
    - rewrite TENSOR_LENGTH_pixels. lia. }
  split; [|split].
  - rewrite encode_length. apply TENSOR_LENGTH_value.
  - intros k c Hk Hc.
    destruct (lookup_lt_is_Some_2 data (4 * k + c)%nat) as [b Hb].
    { rewrite Hlen. lia. }
    exists b. split; [exact Hb|].
    rewrite (Hpix data k c eq_refl Hk Hc), Hb. reflexivity.
  - intros data' Hlen' Hsame.
    apply list_eq. intros j.
    destruct (decide (j < TENSOR_LENGTH)%nat) as [Hj|Hj].
    + pose proof (Nat.div_mod_eq j 3) as Hdiv.
      pose proof (Nat.mod_upper_bound j 3 ltac:(lia)) as Hmod.
      rewrite TENSOR_LENGTH_pixels in Hj.
      rewrite Hdiv.
      rewrite (Hpix data' _ _ Hlen'), (Hpix data _ _ eq_refl) by lia.
      rewrite Hsame; [reflexivity|].
      rewrite Nat.add_comm, Nat.mul_comm, Nat.Div0.mod_add.
      rewrite Nat.mod_small; lia.
    + rewrite !lookup_ge_None_2; [reflexivity| |]; rewrite encode_length; lia.
Qed.

Lemma encode_rgb_224_witness :
  Z.of_nat (length (encode (replicate (224 * 224 * 4) "000"%byte))) = 150528.
Proof.
  apply (encode_rgb_224 (replicate (224 * 224 * 4) "000"%byte)).
  apply length_replicate.
Defined.

(** C2, as the code has it.  The encoder checks no length and raises
    nothing: whatever the length of the buffer, the tensor has exactly
    150,528 entries.  The channels of the pixels the buffer has, up to the
    50,176th, are stored in order (a byte missing from an incomplete last
    pixel reads as NaN); the entries for which the buffer has no pixel keep
    the 0 of the fresh array; and bytes from the 200,704th on never reach
    the tensor. *)
Theorem encode_any_length (data : list byte) :
  Z.of_nat (length (encode data)) = 150528
  ∧ (∀ k c : nat, (c < 3)%nat → (4 * k < length data)%nat → (k < 224 * 224)%nat →
       encode data !! (3 * k + c)%nat = Some (to_number (data !! (4 * k + c)%nat)))
  ∧ (∀ j : nat, (j < TENSOR_LENGTH)%nat →
       (∀ k : nat, (4 * k < length data)%nat → (3 * k + 3 ≤ j)%nat) →
       encode data !! j = Some (Num 0))
  ∧ (∀ data' : list byte,
       (∀ i : nat, (i < 224 * 224 * 4)%nat → data' !! i = data !! i) →
       encode data' = encode data).
Proof.
  split; [|split; [|split]].
  - rewrite encode_length. apply TENSOR_LENGTH_value.
  - intros k c Hc Hk Hpix. apply encode_lookup_pixel; [done..|].
    rewrite TENSOR_LENGTH_pixels. lia.
  - apply encode_lookup_padding.
  - intros data' Hsame. apply list_eq. intros j.
    destruct (decide (j < TENSOR_LENGTH)%nat) as [Hj|Hj];
      [|rewrite !lookup_ge_None_2; [reflexivity| |]; rewrite encode_length; lia].
    assert (∃ k c : nat, j = (3 * k + c)%nat ∧ (c < 3)%nat) as (k & c & -> & Hc).
    { exists (j `div` 3)%nat, (j `mod` 3)%nat. split.
      - apply Nat.div_mod_eq.
      - apply Nat.mod_upper_bound. lia. }
    assert (Hk : (k < 224 * 224)%nat) by (rewrite TENSOR_LENGTH_pixels in Hj; lia).
    assert (Hlen : (4 * k < length data' ↔ 4 * k < length data)%nat).
    { rewrite <- !lookup_lt_is_Some, Hsame by lia. reflexivity. }
    destruct (decide (4 * k < length data)%nat) as [Hd|Hd].
    + rewrite (encode_lookup_pixel data' k c), (encode_lookup_pixel data k c)
        by (tauto || lia).
      by rewrite Hsame by lia.
    + rewrite (encode_lookup_padding data'), (encode_lookup_padding data);
        [reflexivity|done| |done|]; intros k' Hk'; lia.
Qed.

(** C2 as stated fails: the empty buffer is not 224 * 224 * 4 bytes long,
    and the encoder answers with the fresh array, all zeros, instead of
    an error. *)
Lemma encode_empty_buffer_padded :
  length ([] : list byte) ≠ (224 * 224 * 4)%nat
  ∧ encode [] = replicate TENSOR_LENGTH (Num 0).
Proof.
  split.
  - cbn [length]. lia.
  - unfold encode. apply encode_loop_done. cbn [length]. lia.
Qed.

(* ===================================================================== *)
(** * Properties of the JavaScript functions *)
(* ===================================================================== *)

Lemma Qle_bool_false (a b : Q) : Qle_bool a b = false ↔ (b < a)%Q.
Proof.
  rewrite <- not_true_iff_false, Qle_bool_iff. split.
  - apply Qnot_le_lt.
  - apply Qlt_not_le.
Qed.

Lemma gt_Num (a b : Q) : gt (Num a) (Num b) = true ↔ (b < a)%Q.
Proof. simpl. rewrite negb_true_iff. apply Qle_bool_false. Qed.

Lemma gt_Num_false (a b : Q) : gt (Num a) (Num b) = false ↔ (a <= b)%Q.
Proof. simpl. rewrite negb_false_iff. apply Qle_bool_iff. Qed.

Lemma strict_eq_Num (a b : Q) : strict_eq (Num a) (Num b) = true ↔ (a == b)%Q.
Proof. apply Qeq_bool_iff. Qed.

Lemma strict_eq_Num_false (a b : Q) : strict_eq (Num a) (Num b) = false ↔ ¬ (a == b)%Q.
Proof. rewrite <- not_true_iff_false, strict_eq_Num. reflexivity. Qed.

(** Case analysis on numbers, down to linear arithmetic on rationals. *)
Ltac numbers :=
  intros;
  repeat match goal with x : number |- _ => destruct x end;
  rewrite ?gt_Num, ?gt_Num_false, ?strict_eq_Num, ?strict_eq_Num_false in *;
  simpl in *; try done; try lra.

Lemma gt_irrefl x : gt x x = false.
Proof. numbers. Qed.

Lemma gt_asym x y : gt x y = true → gt y x = false.
Proof. numbers. Qed.

Lemma le_trans x y z :
  is_nan y = false → gt x y = false → gt y z = false → gt x z = false.
Proof. numbers. Qed.

Lemma gt_total x y :
  is_nan x = false → is_nan y = false →
  gt x y = false → strict_eq x y = false → gt y x = true.
Proof. numbers. Qed.

Lemma strict_eq_refl x : is_nan x = false → strict_eq x x = true.
Proof. numbers. Qed.

Lemma strict_eq_gt_l x y z : strict_eq x y = true → gt x z = gt y z.
Proof.
  destruct (gt y z) eqn:Hgt; revert Hgt; numbers.
Qed.

Lemma strict_eq_gt_r x y z : strict_eq x y = true → gt z x = gt z y.
Proof.
  destruct (gt z y) eqn:Hgt; revert Hgt; numbers.
Qed.

Lemma strict_eq_not_nan x y : strict_eq x y = true → is_nan x = false ∧ is_nan y = false.
Proof. numbers. Qed.

Lemma gt_NInf x : is_nan x = false → (if gt x NInf then x else NInf) = x.
Proof. numbers. Qed.

(** ** [Math.max] *)

Lemma max_scan_spec highest values :
  is_nan highest = false → no_NaN values →
  let m := max_scan highest values in
  is_nan m = false
  ∧ (m = highest ∨ m ∈ values)
  ∧ gt highest m = false
  ∧ Forall (λ x, gt x m = false) values.
Proof.
  intros Hhi Hvalues. revert highest Hhi.
  induction Hvalues as [|x rest Hx _ IH]; intros highest Hhi; simpl.
  - repeat split; auto using gt_irrefl.
  - rewrite Hx.
    set (highest' := if gt x highest then x else highest).
    assert (Hnan : is_nan highest' = false) by (unfold highest'; by destruct (gt x highest)).
    assert (Hle1 : gt highest highest' = false).
    { unfold highest'. destruct (gt x highest) eqn:Hgt;
        [by apply gt_asym | apply gt_irrefl]. }
    assert (Hle2 : gt x highest' = false).
    { unfold highest'. destruct (gt x highest) eqn:Hgt;
        [apply gt_irrefl | done]. }
    destruct (IH highest' Hnan) as (Hm & Hin & Hhi' & Hrest).
    repeat split.
    + exact Hm.
    + destruct Hin as [->|Hin]; [|right; by right].
      unfold highest'. destruct (gt x highest); [right; by left | by left].
    + by apply (le_trans _ highest').
    + constructor; [by apply (le_trans _ highest') | exact Hrest].
Qed.

(** On a non-empty list free of NaN, [Math.max] is an element of the list
    that none exceeds. *)
Lemma Math_max_spec values :
  values ≠ [] → no_NaN values →
  is_nan (Math_max values) = false
  ∧ Math_max values ∈ values
  ∧ Forall (λ x, gt x (Math_max values) = false) values.
Proof.
  intros Hne Hvalues.
  destruct values as [|x rest]; [done|]. clear Hne.
  inversion Hvalues as [|? ? Hx Hrest]; subst.
  unfold Math_max. simpl. rewrite Hx, (gt_NInf x Hx).
  destruct (max_scan_spec x rest Hx Hrest) as (Hm & Hin & Hhi & Hall).
  repeat split.
  - exact Hm.
  - destruct Hin as [->|Hin]; [by left | by right].
  - by constructor.
Qed.

(** A NaN anywhere makes [Math.max] NaN. *)
Lemma max_scan_NaN highest values :
  NaN ∈ values → max_scan highest values = NaN.
Proof.
  revert highest. induction values as [|x rest IH]; intros highest Hin.
  - by apply elem_of_nil in Hin.
  - simpl. destruct x; try reflexivity;
      apply elem_of_cons in Hin as [?|Hin]; try discriminate; by apply IH.
Qed.

Lemma Math_max_empty : Math_max [] = NInf.
Proof. reflexivity. Qed.

(** ** [indexOf] *)

Lemma indexOf_from_found k elements s :
  (∃ x, x ∈ elements ∧ strict_eq x s = true) →
  ∃ (i : nat) (x : number),
    indexOf_from k elements s = k + Z.of_nat i
    ∧ elements !! i = Some x
    ∧ strict_eq x s = true
    ∧ (∀ (j : nat) y, (j < i)%nat → elements !! j = Some y → strict_eq y s = false).
Proof.
  revert k. induction elements as [|e rest IH]; intros k (x & Hin & Hx).
  - by apply elem_of_nil in Hin.
  - simpl. destruct (strict_eq e s) eqn:He.
    + exists 0%nat, e. repeat split; [lia | done | intros; lia].
    + destruct (IH (k + 1)) as (i & y & Hidx & Hy & Hys & Hfirst).
      { exists x. split; [|done].
        apply elem_of_cons in Hin as [->|Hin]; [congruence | done]. }
      rewrite Hidx. exists (S i), y. repeat split; [lia | done | done |].
      intros [|j] z Hj Hz; simpl in Hz.
      * congruence.
      * apply (Hfirst j); [lia | done].
Qed.

Lemma indexOf_from_absent k elements s :
  (∀ x, x ∈ elements → strict_eq x s = false) →
  indexOf_from k elements s = -1.
Proof.
  revert k. induction elements as [|e rest IH]; intros k Hall; simpl; [done|].
  rewrite (Hall e) by (by left). apply IH. intros x Hx. apply Hall. by right.
Qed.

Lemma strict_eq_NaN_r x : strict_eq x NaN = false.
Proof. by destruct x. Qed.

(** The index that [probArray.indexOf(Math.max(...probArray))] finds on a
    non-empty list free of NaN: an element that none exceeds and that is
    strictly above every earlier one. *)
Lemma indexOf_Math_max values :
  values ≠ [] → no_NaN values →
  ∃ (i : nat) (x : number),
    indexOf values (Math_max values) = Z.of_nat i
    ∧ values !! i = Some x
    ∧ strict_eq x (Math_max values) = true
    ∧ (∀ (j : nat) y, values !! j = Some y → gt y x = false)
    ∧ (∀ (j : nat) y, (j < i)%nat → values !! j = Some y → gt x y = true).
Proof.
  intros Hne Hvalues.
  destruct (Math_max_spec values Hne Hvalues) as (Hm & Hin & Hall).
  destruct (indexOf_from_found 0 values (Math_max values)) as (i & x & Hidx & Hx & Heq & Hfirst).
  { exists (Math_max values). split; [done | by apply strict_eq_refl]. }
  exists i, x. unfold indexOf. rewrite Hidx, Z.add_0_l.
  split; [done|]. split; [done|]. split; [done|]. split.
  - intros j y Hy. rewrite (strict_eq_gt_r _ _ y Heq).
    rewrite Forall_forall in Hall. apply Hall. by eapply list_elem_of_lookup_2.
  - intros j y Hj Hy.
    assert (Hynan : is_nan y = false).
    { unfold no_NaN in Hvalues. rewrite Forall_forall in Hvalues.
      apply Hvalues. by eapply list_elem_of_lookup_2. }
    rewrite (strict_eq_gt_l _ _ y Heq).
    apply gt_total; [done | done | |].
    + rewrite Forall_forall in Hall. apply Hall. by eapply list_elem_of_lookup_2.
    + by apply (Hfirst j).
Qed.

(** ** [toFixed(2)] *)

Lemma string_app_nil (b : string) : EmptyString +:+ b = b.
Proof. reflexivity. Qed.

Lemma string_app_cons (x : ascii) (a b : string) :
  String x a +:+ b = String x (a +:+ b).
Proof. reflexivity. Qed.

Lemma string_app_assoc (a b c : string) : (a +:+ b) +:+ c = a +:+ (b +:+ c).
Proof.
  induction a as [|x a IH]; rewrite ?string_app_nil, ?string_app_cons; [reflexivity|].
  by rewrite IH.
Qed.

Lemma string_length_app (a b : string) :
  String.length (a +:+ b) = (String.length a + String.length b)%nat.
Proof.
  induction a as [|x a IH]; rewrite ?string_app_nil, ?string_app_cons; [reflexivity|].
  simpl. by rewrite IH.
Qed.

Lemma substring_prefix (a b : string) :
  substring 0 (String.length a) (a +:+ b) = a.
Proof.
  induction a as [|x a IH]; rewrite ?string_app_nil, ?string_app_cons; simpl.
  - by destruct b.
  - by rewrite IH.
Qed.

Lemma substring_whole (b : string) : substring 0 (String.length b) b = b.
Proof. induction b as [|y b IH]; simpl; [reflexivity | by rewrite IH]. Qed.

Lemma substring_suffix (a b : string) :
  substring (String.length a) (String.length b) (a +:+ b) = b.
Proof.
  induction a as [|x a IH]; rewrite ?string_app_nil, ?string_app_cons; simpl;
    [apply substring_whole | exact IH].
Qed.

Lemma pretty_N_go_app (x : N) (s : string) :
  pretty_N_go x s = pretty_N_go x EmptyString +:+ s.
Proof.
  revert s. induction (N.lt_wf_0 x) as [x _ IH]. intros s.
  destruct (decide (x = 0)%N) as [->|Hx].
  - by rewrite !pretty_N_go_0.
  - rewrite !(pretty_N_go_step x) by lia.
    rewrite (IH (x `div` 10)%N) by (apply N.div_lt; lia).
    rewrite (IH (x `div` 10)%N ltac:(apply N.div_lt; lia) (String _ EmptyString)).
    by rewrite string_app_assoc.
Qed.

Lemma pretty_N_snoc (x : N) :
  (10 ≤ x)%N →
  pretty x = pretty (x `div` 10)%N +:+ String (pretty_N_char (x `mod` 10)) EmptyString.
Proof.
  intros Hx. unfold pretty, pretty_N.
  assert (x `div` 10 ≠ 0)%N.
  { intros Hdiv. apply N.div_small_iff in Hdiv; lia. }
  rewrite !decide_False by lia.
  rewrite pretty_N_go_step by lia. apply pretty_N_go_app.
Qed.

Lemma pretty_N_length_pos (x : N) : (0 < String.length (pretty x))%nat.
Proof.
  unfold pretty, pretty_N. destruct (decide (x = 0)%N) as [->|Hx]; simpl; [lia|].
  rewrite pretty_N_go_step, pretty_N_go_app, string_length_app by lia.
  simpl. lia.
Qed.

Lemma digits_snoc (n : Z) :
  10 ≤ n → digits n = digits (n / 10) +:+ digit (n mod 10).
Proof.
  intros Hn. unfold digits, digit.
  rewrite pretty_N_snoc by lia.
  by rewrite Z2N.inj_div, Z2N.inj_mod by lia.
Qed.

Lemma digits_hundreds (n : Z) :
  100 ≤ n → digits n = digits (n / 100) +:+ digit (n / 10 mod 10) +:+ digit (n mod 10).
Proof.
  intros Hn.
  rewrite (digits_snoc n) by lia.
  rewrite (digits_snoc (n / 10)) by (apply Z.div_le_lower_bound; lia).
  rewrite Z.div_div by lia. apply string_app_assoc.
Qed.

Lemma split_fraction_app (a : string) (c1 c2 : ascii) :
  split_fraction (a +:+ String c1 (String c2 EmptyString)) = a +:+ "." +:+ String c1 (String c2 EmptyString).
Proof.
  unfold split_fraction. rewrite string_length_app. simpl String.length.
  replace (String.length a + 2 - 2)%nat with (String.length a) by lia.
  rewrite substring_prefix.
  pose proof (substring_suffix a (String c1 (String c2 EmptyString))) as Hsuffix.
  simpl String.length in Hsuffix. by rewrite Hsuffix.
Qed.

(** Below 100 hundredths the digits are padded with zeros; the hundred
    cases are checked one by one. *)
Lemma split_fraction_small_cases :
  forallb (λ n, String.eqb (split_fraction (pad_to_3 (digits n))) (two_decimal_places n))
          (seqZ 0 100) = true.
Proof. vm_compute. reflexivity. Qed.

Lemma split_fraction_digits (n : Z) :
  0 ≤ n → split_fraction (pad_to_3 (digits n)) = two_decimal_places n.
Proof.
  intros Hn. destruct (decide (n < 100)) as [Hsmall|Hbig].
  - pose proof split_fraction_small_cases as Hall.
    rewrite forallb_forall in Hall.
    apply String.eqb_eq, Hall, list_elem_of_In, elem_of_seqZ. lia.
  - unfold two_decimal_places. rewrite (digits_hundreds n) by lia.
    unfold pad_to_3.
    pose proof (pretty_N_length_pos (Z.to_N (n / 100))) as Hlen.
    fold (digits (n / 100)) in Hlen.
    rewrite string_length_app. simpl String.length.
    destruct (Nat.leb_spec (String.length (digits (n / 100)) + 2) 2); [lia|].
    apply (split_fraction_app (digits (n / 100))).
Qed.

(** [floor (y + 1/2)] is the integer nearest to [y], the larger of two. *)
Lemma Qfloor_half_nearest (y : Q) : nearest_integer (Qfloor (y + (1 # 2))) y.
Proof.
  intros k.
  pose proof (Qfloor_le (y + (1 # 2))) as Hlo.
  pose proof (Qlt_floor (y + (1 # 2))) as Hhi.
  set (n := Qfloor (y + (1 # 2))) in *.
  rewrite inject_Z_plus in Hhi. change (inject_Z 1) with 1%Q in Hhi.
  assert (Hk : k ≤ n - 1 ∨ k = n ∨ n + 1 ≤ k) by lia.
  destruct Hk as [Hk|[->|Hk]].
  - assert (Hkn : (inject_Z k <= inject_Z n + - (1))%Q).
    { change (- (1))%Q with (inject_Z (-1)). rewrite <- inject_Z_plus.
      rewrite <- Zle_Qle. lia. }
    split; [|intros _; lia].
    apply Qabs_case; intros ?; apply Qabs_case; intros ?; lra.
  - split; [apply Qle_refl | intros _; lia].
  - assert (Hkn : (inject_Z n + 1 <= inject_Z k)%Q).
    { change 1%Q with (inject_Z 1). rewrite <- inject_Z_plus.
      rewrite <- Zle_Qle. lia. }
    split.
    + apply Qabs_case; intros ?; apply Qabs_case; intros ?; lra.
    + apply Qabs_case; intros ?; apply Qabs_case; intros ?; lra.
Qed.

Lemma toFixed_n_nonneg (x : Q) : (0 <= x)%Q → 0 ≤ toFixed_n x.
Proof.
  intros Hx. unfold toFixed_n.
  change 0 with (Qfloor 0). apply Qfloor_resp_le. lra.
Qed.

(** [toFixed(2)] of a finite number below 10^21 in absolute value. *)
Lemma toFixed2_finite (f : Q → string) (q : Q) :
  (Qabs q < 10 ^ 21)%Q →
  ∃ n : Z,
    0 ≤ n
    ∧ nearest_integer n (Qabs q * 100)
    ∧ toFixed2 f (Num q)
      = (if Qlt_le_dec q 0 then "-" else EmptyString) +:+ two_decimal_places n.
Proof.
  intros Hq. exists (toFixed_n (Qabs q)). split; [|split].
  - apply toFixed_n_nonneg, Qabs_nonneg.
  - apply Qfloor_half_nearest.
  - unfold toFixed2.
    destruct (Qle_bool (10 ^ 21) (Qabs q)) eqn:Hbig.
    + apply Qle_bool_iff in Hbig. lra.
    + by rewrite split_fraction_digits by apply toFixed_n_nonneg, Qabs_nonneg.
Qed.

(* ===================================================================== *)
(** * Properties of the result interpreter *)
(* ===================================================================== *)

Lemma interpret_label (f : Q → string) (scores : list number) :
  label (interpret f scores) = array_get LABELS (indexOf scores (Math_max scores)).
Proof. reflexivity. Qed.

Lemma interpret_confidence (f : Q → string) (scores : list number) :
  confidence (interpret f scores) = toFixed2 f (mul (Math_max scores) 100) +:+ "%".
Proof. reflexivity. Qed.

Lemma array_get_of_nat {A : Type} (array : list A) (i : nat) :
  array_get array (Z.of_nat i) = array !! i.
Proof.
  unfold array_get. destruct (Z.leb_spec 0 (Z.of_nat i)); [|lia].
  by rewrite Nat2Z.id.
Qed.

(** The label of a non-empty score vector free of NaN and no longer than
    the vocabulary. *)
Lemma interpret_argmax (f : Q → string) (scores : list number) :
  scores ≠ [] → (length scores ≤ length LABELS)%nat → no_NaN scores →
  ∃ (i : nat) (x : number) (name : string),
    scores !! i = Some x
    ∧ (∀ (j : nat) (y : number), scores !! j = Some y → gt y x = false)
    ∧ (∀ (j : nat) (y : number), (j < i)%nat → scores !! j = Some y → gt x y = true)
    ∧ indexOf scores (Math_max scores) = Z.of_nat i
    ∧ LABELS !! i = Some name
    ∧ label (interpret f scores) = Some name.
Proof.
  intros Hne Hlen Hnan.
  destruct (indexOf_Math_max scores Hne Hnan) as (i & x & Hidx & Hx & _ & Hmax & Hfirst).
  destruct (lookup_lt_is_Some_2 LABELS i) as [name Hname].
  { apply lookup_lt_Some in Hx. lia. }
  exists i, x, name. repeat split; try done.
  by rewrite interpret_label, Hidx, array_get_of_nat.
Qed.

(** C4, as the code has it.  For a score vector of the length of the
    vocabulary (7) with no NaN among its scores, the interpreter selects
    the index of a maximum score, the lowest such index, and returns the
    label the vocabulary has there. *)
Theorem interpret_selects_first_maximum (f : Q → string) (scores : list number) :
  length scores = 7%nat → no_NaN scores →
  ∃ (i : nat) (x : number) (name : string),
    scores !! i = Some x
    ∧ (∀ (j : nat) (y : number), scores !! j = Some y → gt y x = false)
    ∧ (∀ (j : nat) (y : number), (j < i)%nat → scores !! j = Some y → gt x y = true)
    ∧ indexOf scores (Math_max scores) = Z.of_nat i
    ∧ LABELS !! i = Some name
    ∧ label (interpret f scores) = Some name.
Proof.
  intros Hlen Hnan. apply interpret_argmax; [|by rewrite Hlen|done].
  intros ->. discriminate Hlen.
Qed.

Lemma interpret_selects_first_maximum_witness :
  ∃ (i : nat) (x : number) (name : string),
    tied_scores !! i = Some x
    ∧ (∀ (j : nat) (y : number), tied_scores !! j = Some y → gt y x = false)
    ∧ (∀ (j : nat) (y : number), (j < i)%nat → tied_scores !! j = Some y → gt x y = true)
    ∧ indexOf tied_scores (Math_max tied_scores) = Z.of_nat i
    ∧ LABELS !! i = Some name
    ∧ label (interpret sample_Number_toString tied_scores) = Some name.
Proof.
  apply (interpret_selects_first_maximum sample_Number_toString tied_scores).
  - reflexivity.
  - unfold no_NaN, tied_scores. repeat constructor.
Defined.

(** The tied vector of the specification: index 0 and its label. *)
Lemma tied_scores_pick_index_0 :
  indexOf tied_scores (Math_max tied_scores) = 0
  ∧ label (interpret sample_Number_toString tied_scores) = Some "Bacterial Leaf Blight".
Proof. split; reflexivity. Qed.

(** C4 as stated fails on a vector of length 7 that holds a NaN:
    [Math.max] is NaN, [indexOf] finds nothing and answers -1, and
    [LABELS[-1]] is [undefined]. *)
Lemma interpret_NaN_no_label :
  length NaN_scores = 7%nat
  ∧ Math_max NaN_scores = NaN
  ∧ indexOf NaN_scores (Math_max NaN_scores) = -1
  ∧ label (interpret sample_Number_toString NaN_scores) = None.
Proof. repeat split; reflexivity. Qed.

(** The call of [Math.max] within the engine's limit, and beyond it. *)
Lemma interpret_call_within (limit : N) (f : Q → string) (scores : list number) :
  (N.of_nat (length scores) ≤ limit)%N →
  interpret_call limit f scores = inr (interpret f scores).
Proof.
  intros Hlimit. unfold interpret_call, Math_max_call.
  apply N.leb_le in Hlimit. by rewrite Hlimit.
Qed.

Lemma interpret_call_beyond (limit : N) (f : Q → string) (scores : list number) :
  (limit < N.of_nat (length scores))%N →
  interpret_call limit f scores = inl (Error "RangeError").
Proof.
  intros Hlimit. unfold interpret_call, Math_max_call.
  apply N.leb_gt in Hlimit. by rewrite Hlimit.
Qed.

Lemma interpret_call_returns (limit : N) (f : Q → string) (scores : list number)
    (d : Diagnosis) :
  interpret_call limit f scores = inr d →
  (N.of_nat (length scores) ≤ limit)%N ∧ d = interpret f scores.
Proof.
  destruct (N.leb_spec (N.of_nat (length scores)) limit) as [Hlimit|Hlimit].
  - rewrite interpret_call_within by done. by intros [= <-].
  - by rewrite interpret_call_beyond.
Qed.

Lemma Legacy_interpret_call_within (limit : N) (f : Q → string) (scores : list number) :
  (N.of_nat (length scores) ≤ limit)%N →
  Legacy.interpret_call limit f scores = inr (Legacy.interpret f scores).
Proof.
  intros Hlimit. unfold Legacy.interpret_call, Math_max_call.
  apply N.leb_le in Hlimit. by rewrite Hlimit.
Qed.

Lemma Legacy_interpret_call_beyond (limit : N) (f : Q → string) (scores : list number) :
  (limit < N.of_nat (length scores))%N →
  Legacy.interpret_call limit f scores = inl (Error "RangeError").
Proof.
  intros Hlimit. unfold Legacy.interpret_call, Math_max_call.
  apply N.leb_gt in Hlimit. by rewrite Hlimit.
Qed.

(** C3, as the code has it.  The interpreter compares no length and never
    fails with an error of its own; the one failure is the engine's
    RangeError, when the vector has more scores than a call of
    [Math.max] takes arguments.  Within that limit: the empty score
    vector gets an undefined label and the confidence "-Infinity%"; a
    non-empty vector with no NaN and at most 7 scores gets the label at
    the index of its maximum score, the lowest such index; and whenever
    the stages before it succeed, the request ends with the diagnosis of
    the model's first output, whatever its length. *)
Theorem interpret_checks_no_length (f : Q → string) :
  (∀ limit : N,
     interpret_call limit f [] = inr {| label := None; confidence := "-Infinity%" |})
  ∧ (∀ (limit : N) (scores : list number),
       scores ≠ [] → (length scores ≤ 7)%nat → no_NaN scores →
       (N.of_nat (length scores) ≤ limit)%N →
       ∃ (i : nat) (x : number) (name : string),
         scores !! i = Some x
         ∧ (∀ (j : nat) (y : number), scores !! j = Some y → gt y x = false)
         ∧ (∀ (j : nat) (y : number), (j < i)%nat → scores !! j = Some y → gt x y = true)
         ∧ LABELS !! i = Some name
         ∧ ∃ d : Diagnosis,
             interpret_call limit f scores = inr d ∧ label d = Some name)
  ∧ (∀ (h : Host) (m : TensorflowModel) (image manipResult base64 : string)
       (rawData : list byte) (outputs : list (list number)) (probabilities : list number),
       manipulateAsync h image = inr manipResult →
       readAsStringAsync h manipResult = inr base64 →
       jpeg_decode h base64 = inr rawData →
       run m [encode rawData] = inr outputs →
       outputs !! 0%nat = Some probabilities →
       ((N.of_nat (length probabilities) ≤ argument_limit h)%N →
        analyzeImage_try h m image = inr (interpret (Number_toString h) probabilities))
       ∧ ((argument_limit h < N.of_nat (length probabilities))%N →
          analyzeImage_try h m image = inl (Error "RangeError"))).
Proof.
  split; [|split].
  - intros limit. apply interpret_call_within. simpl. lia.
  - intros limit scores Hne Hlen Hnan Hlimit.
    destruct (interpret_argmax f scores Hne Hlen Hnan)
      as (i & x & name & Hx & Hmax & Hfirst & _ & Hname & Hlabel).
    exists i, x, name. repeat split; try done.
    exists (interpret f scores). split; [by apply interpret_call_within | done].
  - intros h m image manipResult base64 rawData outputs probabilities
      Hresize Hread Hdecode Hrun Hout.
    unfold analyzeImage_try. rewrite Hresize. simpl.
    rewrite Hread. simpl. rewrite Hdecode. simpl. rewrite Hrun. simpl.
    unfold first_output. rewrite Hout. simpl. split; intros Hlimit.
    + by apply interpret_call_within.
    + by apply interpret_call_beyond.
Qed.

(** C3 as stated fails: a score vector of length 5 against the vocabulary
    of 7 labels is interpreted, and a label comes out. *)
Lemma interpret_length_5_returns_label :
  length five_scores = 5%nat
  ∧ length LABELS = 7%nat
  ∧ interpret sample_Number_toString five_scores
    = {| label := Some "Healthy Rice Leaf"; confidence := "60.00%" |}.
Proof. repeat split; reflexivity. Qed.

(** C5, as the code has it.  When the maximum score [m] is a finite number
    and [m * 100] is below 10^21 in absolute value, the confidence is the
    sign of [m], then the integer nearest to the hundredths of
    [|m * 100|] (the larger one from halfway) written with two decimal
    places, then "%". *)
Theorem confidence_two_decimal_places (f : Q → string) (scores : list number) (m : Q) :
  Math_max scores = Num m → (Qabs (m * 100) < 10 ^ 21)%Q →
  ∃ n : Z,
    0 ≤ n
    ∧ nearest_integer n (Qabs (m * 100) * 100)
    ∧ confidence (interpret f scores)
      = (if Qlt_le_dec (m * 100) 0 then "-" else EmptyString) +:+ two_decimal_places n +:+ "%".
Proof.
  intros Hmax Hbound.
  destruct (toFixed2_finite f (m * 100) Hbound) as (n & Hn & Hnear & Hfixed).
  exists n. split; [done|]. split; [done|].
  rewrite interpret_confidence, Hmax. simpl mul.
  rewrite Hfixed. apply string_app_assoc.
Qed.

Lemma confidence_two_decimal_places_witness :
  ∃ n : Z,
    0 ≤ n
    ∧ nearest_integer n (Qabs ((10066330 # 16777216) * 100) * 100)
    ∧ confidence (interpret sample_Number_toString spec_scores)
      = (if Qlt_le_dec ((10066330 # 16777216) * 100) 0 then "-" else EmptyString)
        +:+ two_decimal_places n +:+ "%".
Proof.
  apply (confidence_two_decimal_places sample_Number_toString spec_scores).
  - reflexivity.
  - reflexivity.
Defined.

(** The vector of the specification, as the binary32 values nearest to
    its decimals: label index 2 and the confidence "60.00%". *)
Lemma spec_scores_diagnosis :
  indexOf spec_scores (Math_max spec_scores) = 2
  ∧ interpret sample_Number_toString spec_scores
    = {| label := Some "Healthy Rice Leaf"; confidence := "60.00%" |}.
Proof. split; reflexivity. Qed.

(** C5 as stated fails on a vector whose maximum is +Infinity: the
    confidence is "Infinity%", which has no decimal places. *)
Lemma confidence_of_infinite_score :
  length infinite_scores = 7%nat
  ∧ Math_max infinite_scores = PInf
  ∧ confidence (interpret sample_Number_toString infinite_scores) = "Infinity%".
Proof. repeat split; reflexivity. Qed.

(** [toFixed(2)] does not see how a rational is written. *)
Lemma toFixed2_Qeq (f : Q → string) (a b : Q) :
  (a == b)%Q → (Qabs a < 10 ^ 21)%Q → toFixed2 f (Num a) = toFixed2 f (Num b).
Proof.
  intros Hab Hbound. unfold toFixed2.
  assert (Hbig : ∀ q, (q == a)%Q → Qle_bool (10 ^ 21) (Qabs q) = false).
  { intros q Hq. apply not_true_iff_false. rewrite Qle_bool_iff, Hq. lra. }
  rewrite (Hbig a) by reflexivity. rewrite (Hbig b) by (by symmetry).
  assert (Hn : toFixed_n (Qabs a) = toFixed_n (Qabs b)).
  { unfold toFixed_n. apply Qfloor_comp. by rewrite Hab. }
  rewrite Hn.
  destruct (Qlt_le_dec a 0), (Qlt_le_dec b 0); try reflexivity; lra.
Qed.

(** The earlier [App] reads the confidence back at the index found.  On a
    non-empty vector with no NaN whose maximum is finite and below 10^19
    in absolute value, its diagnosis is the same. *)
Lemma Legacy_interpret_agrees (f : Q → string) (scores : list number) (m : Q) :
  scores ≠ [] → no_NaN scores →
  Math_max scores = Num m → (Qabs (m * 100) < 10 ^ 21)%Q →
  Legacy.interpret f scores = interpret f scores.
Proof.
  intros Hne Hnan Hmax Hbound.
  destruct (indexOf_Math_max scores Hne Hnan) as (i & x & Hidx & Hx & Heq & _).
  unfold Legacy.interpret, interpret.
  cbv zeta. rewrite Hidx, !array_get_of_nat, Hx. simpl default. f_equal.
  rewrite Hmax in Heq |- *. destruct x as [| | |a]; try discriminate Heq.
  apply strict_eq_Num in Heq. simpl mul. f_equal.
  apply toFixed2_Qeq; [by rewrite Heq | by rewrite Heq].
Qed.

(** With a NaN in the vector it prints "NaN%" and has no label, as the
    later [App] does. *)
Lemma Legacy_interpret_NaN :
  Legacy.interpret sample_Number_toString NaN_scores
  = {| label := None; confidence := "NaN%" |}
  ∧ interpret sample_Number_toString NaN_scores
    = {| label := None; confidence := "NaN%" |}.
Proof. split; reflexivity. Qed.

(* ===================================================================== *)
(** * Properties of the request handlers *)
(* ===================================================================== *)

Lemma truthy_Some (s : string) : s ≠ EmptyString → truthy (Some s) = Some s.
Proof. by destruct s. Qed.

(** The [try] block fails exactly when one of its stages does. *)
Lemma analyzeImage_try_fails (h : Host) (m : TensorflowModel) (image : string) (e : error) :
  analyzeImage_try h m image = inl e ↔ stage_fails h m image e.
Proof.
  unfold analyzeImage_try, stage_fails.
  destruct (manipulateAsync h image) as [e1|manipResult]; simpl.
  { split; [intros [= ->]; by left | intros [[= ->]|(? & [=] & _)]; done]. }
  destruct (readAsStringAsync h manipResult) as [e2|base64] eqn:Hread; simpl.
  { split.
    - intros [= ->]. right. exists manipResult. split; [done|]. by left.
    - intros [[=]|(? & [= <-] & [He|(? & He & _)])]; congruence. }
  destruct (jpeg_decode h base64) as [e3|rawData] eqn:Hdecode; simpl.
  { split.
    - intros [= ->]. right. exists manipResult. split; [done|]. right.
      exists base64. split; [done|]. by left.
    - intros [[=]|(? & [= <-] & [He|(? & He & [He'|(? & He' & _)])])]; congruence. }
  destruct (run m [encode rawData]) as [e4|outputs] eqn:Hrun; simpl.
  { split.
    - intros [= ->]. right. exists manipResult. split; [done|]. right.
      exists base64. split; [done|]. right. exists rawData. split; [done|]. by left.
    - intros [[=]|(? & [= <-] & [He|(? & He & [He'|(? & He' & [He''|(? & He'' & _)])])])];
        congruence. }
  destruct (first_output outputs) as [e5|probabilities] eqn:Hout; simpl.
  { split.
    - intros [= ->]. right. exists manipResult. split; [done|]. right.
      exists base64. split; [done|]. right. exists rawData. split; [done|]. right.
      exists outputs. split; [done|]. by left.
    - intros [[=]|(? & [= <-] & [He|(? & He & [He'|(? & He' & [He''|(? & He'' &
               [He3|(? & He3 & _)])])])])]; congruence. }
  split.
  - intros Hcall. right. exists manipResult. split; [done|]. right.
    exists base64. split; [done|]. right. exists rawData. split; [done|]. right.
    exists outputs. split; [done|]. right. by exists probabilities.
  - intros [[=]|(? & [= <-] & [He|(? & He & [He'|(? & He' & [He''|(? & He'' &
             [He3|(? & He3 & He4)])])])])]; congruence.
Qed.

(** [addToHistory] touches the store and the console, nothing else. *)
Lemma addToHistory_frame (h : Host) (d : Diagnosis) (uri : string) (st : State) :
  let st' := addToHistory h d uri st in
  model st' = model st ∧ selectedImage st' = selectedImage st
  ∧ prediction st' = prediction st ∧ loading st' = loading st
  ∧ alerts st' = alerts st.
Proof.
  unfold addToHistory.
  destruct (addToHistory_try h d uri (storage st)) as [e|store]; simpl; done.
Qed.

(** The later turns of a request whose pipeline fails. *)
Lemma analyzeImage_resume_failure (h : Host) (r : Request) (st : State) (e : error) :
  analyzeImage_try h (request_model r) (request_image r) = inl e →
  analyzeImage_resume h r st
  = setLoading false
      (Alert_alert "Error" "Could not analyze image." (console_error (message_of e) st)).
Proof. intros Htry. unfold analyzeImage_resume. by rewrite Htry. Qed.

(** C6.  When a stage of the pipeline fails during a request, the request
    ends with one alert, "Could not analyze image.", added to those
    shown; the prediction, the selected image and the store are what they
    were before the request, and the request is no longer loading. *)
Theorem pipeline_failure_is_one_alert (h : Host) (st : State) (m : TensorflowModel)
    (image : string) (e : error) :
  model st = Some m → selectedImage st = Some image → image ≠ EmptyString →
  stage_fails h m image e →
  prediction (analyzeImage h st) = prediction st
  ∧ alerts (analyzeImage h st) = alerts st ++ [("Error", "Could not analyze image.")]
  ∧ selectedImage (analyzeImage h st) = selectedImage st
  ∧ storage (analyzeImage h st) = storage st
  ∧ loading (analyzeImage h st) = false.
Proof.
  intros Hmodel Himage Hne Hfail. apply analyzeImage_try_fails in Hfail.
  unfold analyzeImage, analyzeImage_begin.
  rewrite Hmodel, Himage, (truthy_Some image Hne).
  rewrite (analyzeImage_resume_failure h _ _ e) by exact Hfail.
  simpl. by rewrite Himage.
Qed.

Lemma pipeline_failure_is_one_alert_witness :
  prediction (analyzeImage broken_decoder_host (handleImageResult (Picked "file:///a.jpg") ready_state))
  = prediction (handleImageResult (Picked "file:///a.jpg") ready_state)
  ∧ alerts (analyzeImage broken_decoder_host (handleImageResult (Picked "file:///a.jpg") ready_state))
    = alerts (handleImageResult (Picked "file:///a.jpg") ready_state)
      ++ [("Error", "Could not analyze image.")]
  ∧ selectedImage (analyzeImage broken_decoder_host (handleImageResult (Picked "file:///a.jpg") ready_state))
    = selectedImage (handleImageResult (Picked "file:///a.jpg") ready_state)
  ∧ storage (analyzeImage broken_decoder_host (handleImageResult (Picked "file:///a.jpg") ready_state))
    = storage (handleImageResult (Picked "file:///a.jpg") ready_state)
  ∧ loading (analyzeImage broken_decoder_host (handleImageResult (Picked "file:///a.jpg") ready_state))
    = false.
Proof.
  apply (pipeline_failure_is_one_alert broken_decoder_host _ sample_model
           "file:///a.jpg" (Error "SOI not found")).
  - reflexivity.
  - reflexivity.
  - discriminate.
  - right. exists "file:///a.jpg". split; [reflexivity|]. right.
    exists "file:///a.jpg". split; [reflexivity|]. left. reflexivity.
Defined.

(** The later turns of a request whose pipeline succeeds. *)
Lemma analyzeImage_resume_success (h : Host) (r : Request) (st : State) (d : Diagnosis) :
  analyzeImage_try h (request_model r) (request_image r) = inr d →
  analyzeImage_resume h r st
  = setLoading false (addToHistory h d (request_image r) (setPrediction (Some d) st)).
Proof. intros Htry. unfold analyzeImage_resume. by rewrite Htry. Qed.

(** C10.  When the pipeline has produced a diagnosis and an error is
    raised while the history entry is persisted, [addToHistory] logs it
    and nothing else happens: the diagnosis is the prediction, no alert
    is added, the store is unchanged. *)
Theorem history_failure_is_contained (h : Host) (st : State) (m : TensorflowModel)
    (image : string) (d : Diagnosis) (e : error) :
  model st = Some m → selectedImage st = Some image → image ≠ EmptyString →
  analyzeImage_try h m image = inr d →
  addToHistory_try h d image (storage st) = inl e →
  prediction (analyzeImage h st) = Some d
  ∧ alerts (analyzeImage h st) = alerts st
  ∧ storage (analyzeImage h st) = storage st
  ∧ console (analyzeImage h st) = console st ++ ["Failed to save history: " +:+ message_of e]
  ∧ loading (analyzeImage h st) = false.
Proof.
  intros Hmodel Himage Hne Htry Hsave.
  unfold analyzeImage, analyzeImage_begin.
  rewrite Hmodel, Himage, (truthy_Some image Hne).
  rewrite (analyzeImage_resume_success h _ _ d) by exact Htry.
  unfold addToHistory. simpl. rewrite Hsave. done.
Qed.

Lemma history_failure_is_contained_witness :
  prediction (analyzeImage full_store_host (handleImageResult (Picked "file:///a.jpg") ready_state))
  = Some {| label := Some "Healthy Rice Leaf"; confidence := "60.00%" |}
  ∧ alerts (analyzeImage full_store_host (handleImageResult (Picked "file:///a.jpg") ready_state))
    = alerts (handleImageResult (Picked "file:///a.jpg") ready_state)
  ∧ storage (analyzeImage full_store_host (handleImageResult (Picked "file:///a.jpg") ready_state))
    = storage (handleImageResult (Picked "file:///a.jpg") ready_state)
  ∧ console (analyzeImage full_store_host (handleImageResult (Picked "file:///a.jpg") ready_state))
    = console (handleImageResult (Picked "file:///a.jpg") ready_state)
      ++ ["Failed to save history: " +:+ message_of (Error "database or disk is full")]
  ∧ loading (analyzeImage full_store_host (handleImageResult (Picked "file:///a.jpg") ready_state))
    = false.
Proof.
  apply (history_failure_is_contained full_store_host _ sample_model "file:///a.jpg").
  - reflexivity.
  - reflexivity.
  - discriminate.
  - vm_compute. reflexivity.
  - reflexivity.
Defined.

(** Whatever happens while the entry is persisted, [addToHistory] lets no
    error out and leaves the prediction and the alerts alone. *)
Lemma analyzeImage_success_surfaces (h : Host) (st : State) (m : TensorflowModel)
    (image : string) (d : Diagnosis) :
  model st = Some m → selectedImage st = Some image → image ≠ EmptyString →
  analyzeImage_try h m image = inr d →
  prediction (analyzeImage h st) = Some d ∧ alerts (analyzeImage h st) = alerts st.
Proof.
  intros Hmodel Himage Hne Htry.
  unfold analyzeImage, analyzeImage_begin.
  rewrite Hmodel, Himage, (truthy_Some image Hne).
  rewrite (analyzeImage_resume_success h _ _ d) by exact Htry.
  simpl.
  destruct (addToHistory_frame h d image (setPrediction (Some d) (setLoading true st)))
    as (_ & _ & Hp & _ & Ha).
  by rewrite Hp, Ha.
Qed.

(** C8.  When [addToHistory] writes the history, what it writes under
    ["leaf_history"] is the new entry followed by the entries the store
    held, cut to 20: the new entry is first and there are at most 20. *)
Theorem history_newest_first_capped (h : Host) (d : Diagnosis) (uri : string)
    (store store' : gmap string string) :
  addToHistory_try h d uri store = inr store' →
  ∃ previous items : list jsval,
    parse_history h (store !! "leaf_history") ≫= spread = inr previous
    ∧ items = take 20 (newEntry (Date_now h) (Date_toLocaleString h) d uri :: previous)
    ∧ store' = <["leaf_history" := JSON_stringify h (JArray items)]> store
    ∧ head items = Some (newEntry (Date_now h) (Date_toLocaleString h) d uri)
    ∧ (length items ≤ 20)%nat.
Proof.
  unfold addToHistory_try, AsyncStorage_getItem, AsyncStorage_setItem.
  destruct (getItem_fault h); simpl; [done|].
  destruct (parse_history h (store !! "leaf_history")) as [?|parsed]; simpl; [done|].
  destruct (spread parsed) as [?|previous]; simpl; [done|].
  destruct (setItem_fault h); simpl; [done|].
  intros [= <-]. exists previous, (take 20 (newEntry (Date_now h) (Date_toLocaleString h) d uri :: previous)).
  repeat split; try done.
  rewrite length_take. lia.
Qed.

Lemma history_newest_first_capped_witness :
  ∃ previous items : list jsval,
    parse_history sample_host ((∅ : gmap string string) !! "leaf_history") ≫= spread
    = inr previous
    ∧ items = take 20 (newEntry (Date_now sample_host) (Date_toLocaleString sample_host)
                         {| label := Some "Brown Spot"; confidence := "91.20%" |}
                         "file:///a.jpg" :: previous)
    ∧ <["leaf_history" := "[]"]> (∅ : gmap string string)
      = <["leaf_history" := JSON_stringify sample_host (JArray items)]> ∅
    ∧ head items = Some (newEntry (Date_now sample_host) (Date_toLocaleString sample_host)
                           {| label := Some "Brown Spot"; confidence := "91.20%" |}
                           "file:///a.jpg")
    ∧ (length items ≤ 20)%nat.
Proof.
  apply (history_newest_first_capped sample_host
           {| label := Some "Brown Spot"; confidence := "91.20%" |} "file:///a.jpg" ∅).
  reflexivity.
Defined.

(** No fault and a stored history that is absent, empty or an array: the
    write takes place. *)
Lemma addToHistory_try_succeeds (h : Host) (d : Diagnosis) (uri : string)
    (store : gmap string string) (previous : list jsval) :
  getItem_fault h = None → setItem_fault h = None →
  parse_history h (store !! "leaf_history") = inr (JArray previous) →
  addToHistory_try h d uri store
  = inr (<["leaf_history" :=
            JSON_stringify h
              (JArray (take 20 (newEntry (Date_now h) (Date_toLocaleString h) d uri
                                :: previous)))]> store).
Proof.
  intros Hget Hset Hparse.
  unfold addToHistory_try, AsyncStorage_getItem, AsyncStorage_setItem.
  rewrite Hget. simpl. rewrite Hparse. simpl. rewrite Hset. reflexivity.
Qed.

(** A name that is none of the seven keys is not in the advice table. *)
Lemma DISEASE_ADVICE_other (name : string) :
  name ≠ "Bacterial Leaf Blight" → name ≠ "Brown Spot" → name ≠ "Leaf Blast" →
  name ≠ "Leaf Scald" → name ≠ "Sheath Blight" → name ≠ "Healthy Rice Leaf" →
  name ≠ "NOT_A_RICE_LEAF" →
  DISEASE_ADVICE !! name = None.
Proof.
  intros. unfold DISEASE_ADVICE, list_to_map. cbn [foldr fst snd].
  rewrite !lookup_insert_ne by done. apply lookup_empty.
Qed.

(** C7, as the code has it.  For a label that is not a name inherited
    from [Object.prototype], the lookup [DISEASE_ADVICE[label] ||
    fallback] returns the fixed advice of the label when the label is one
    of the seven keys of the table, and the fallback for any other
    label; an undefined label gets the fallback too.  The fallback is
    "Consult an expert." in the history entry and "Please consult an
    agricultural expert." on the result card, and the texts the program
    stores and shows are these. *)
Theorem advice_lookup_own_or_fallback (fallback name : string) :
  name ∉ Object_prototype →
  advice_lookup fallback (Some name)
  = AdviceText
      (if decide (name = "Bacterial Leaf Blight")
       then "⚠️ Treatment: Use copper-based sprays. Avoid excessive Nitrogen."
       else if decide (name = "Brown Spot")
       then "⚠️ Treatment: Improve soil fertility (Potassium/Calcium). Treat seeds."
       else if decide (name = "Leaf Blast")
       then "⚠️ Treatment: Apply Tricyclazole. Maintain water level."
       else if decide (name = "Leaf Scald")
       then "⚠️ Treatment: Use clean seeds. Avoid high Nitrogen."
       else if decide (name = "Sheath Blight")
       then "⚠️ Treatment: Apply Azoxystrobin. Reduce plant density."
       else if decide (name = "Healthy Rice Leaf")
       then "✅ Good News: Your crop looks healthy!"
       else if decide (name = "NOT_A_RICE_LEAF")
       then "❓ Unknown: Please try a clearer photo."
       else fallback)
  ∧ advice_lookup fallback None = AdviceText fallback
  ∧ advice_lookup "Consult an expert." (Some name) = AdviceText (history_advice (Some name))
  ∧ advice_lookup "Please consult an agricultural expert." (Some name)
    = AdviceText (displayed_advice (Some name)).
Proof.
  intros Hname.
  assert (Hproto : bool_decide (name ∈ Object_prototype) = false)
    by (by apply bool_decide_eq_false).
  split; [|split; [reflexivity|]].
  - repeat (destruct (decide (name = _)) as [->|?]; [reflexivity|]).
    unfold advice_lookup. change (property_key (Some name)) with name.
    by rewrite DISEASE_ADVICE_other, Hproto by done.
  - unfold advice_lookup, history_advice, displayed_advice.
    change (property_key (Some name)) with name.
    destruct (DISEASE_ADVICE !! name) as [advice|]; [done|]. by rewrite Hproto.
Qed.

Lemma advice_lookup_own_or_fallback_witness :
  advice_lookup "Consult an expert." (Some "Brown Spot")
  = AdviceText "⚠️ Treatment: Improve soil fertility (Potassium/Calcium). Treat seeds."
  ∧ advice_lookup "Consult an expert." None = AdviceText "Consult an expert."
  ∧ advice_lookup "Consult an expert." (Some "Brown Spot")
    = AdviceText (history_advice (Some "Brown Spot"))
  ∧ advice_lookup "Please consult an agricultural expert." (Some "Brown Spot")
    = AdviceText (displayed_advice (Some "Brown Spot")).
Proof.
  apply (advice_lookup_own_or_fallback "Consult an expert." "Brown Spot").
  apply (bool_decide_unpack _). vm_compute. exact I.
Defined.

(** C7 as stated fails on a label that is not in the advice table and
    names a property that every object inherits: the lookup finds the
    inherited value, which is truthy, and the fallback is not taken. *)
Lemma advice_lookup_constructor :
  DISEASE_ADVICE !! "constructor" = None
  ∧ advice_lookup "Consult an expert." (Some "constructor")
    = InheritedValue "constructor"
  ∧ advice_lookup "Please consult an agricultural expert." (Some "constructor")
    = InheritedValue "constructor".
Proof. repeat split; reflexivity. Qed.

(** An undefined label is looked up under the key "undefined", which the
    table does not have. *)
Lemma advice_of_undefined_label :
  history_advice None = "Consult an expert."
  ∧ displayed_advice None = "Please consult an agricultural expert.".
Proof. split; reflexivity. Qed.

(** Every label of the vocabulary has its advice. *)
Lemma advice_of_every_label (name : string) :
  name ∈ LABELS → is_Some (DISEASE_ADVICE !! name).
Proof.
  unfold LABELS. rewrite !elem_of_cons, elem_of_nil.
  intros [->|[->|[->|[->|[->|[->|[->|[]]]]]]]]; by eexists.
Qed.

(** A picker result that is not cancelled resets the prediction and
    replaces the selected image; a cancelled one changes nothing.  The
    earlier [App] does the same in [pickImage]. *)
Lemma handleImageResult_resets (uri : string) (st : State) :
  prediction (handleImageResult (Picked uri) st) = None
  ∧ selectedImage (handleImageResult (Picked uri) st) = Some uri.
Proof. split; reflexivity. Qed.

Lemma handleImageResult_canceled (st : State) : handleImageResult Canceled st = st.
Proof. reflexivity. Qed.

Lemma Legacy_pickImage_resets (uri : string) (st : Legacy.State) :
  Legacy.result (Legacy.pickImage (Picked uri) st) = None
  ∧ Legacy.imageUri (Legacy.pickImage (Picked uri) st) = Some uri.
Proof. split; reflexivity. Qed.

(** The turns of the event loop, one at a time. *)
Lemma turn_PickerResolved (picked : ImagePickerResult) (st : State) (f : option Request) :
  turn (PickerResolved picked) (st, f) = (handleImageResult picked st, f).
Proof. reflexivity. Qed.

Lemma turn_DiagnosePressed (st : State) (f : option Request) (m : TensorflowModel)
    (uri : string) :
  loading st = false → model st = Some m → selectedImage st = Some uri →
  uri ≠ EmptyString →
  turn DiagnosePressed (st, f)
  = (setLoading true st, Some {| request_model := m; request_image := uri |}).
Proof.
  intros Hloading Hmodel Himage Hne. unfold turn, analyzeImage_begin.
  by rewrite Hloading, Hmodel, Himage, (truthy_Some uri Hne).
Qed.

Lemma turn_AnalysisSettled (h : Host) (st : State) (r : Request) :
  turn (AnalysisSettled h) (st, Some r) = (analyzeImage_resume h r st, None).
Proof. reflexivity. Qed.

Lemma analyzeImage_resume_surfaces (h : Host) (r : Request) (st : State) (d : Diagnosis) :
  analyzeImage_try h (request_model r) (request_image r) = inr d →
  selectedImage (analyzeImage_resume h r st) = selectedImage st
  ∧ prediction (analyzeImage_resume h r st) = Some d.
Proof.
  intros Htry. rewrite (analyzeImage_resume_success h r st d Htry).
  destruct (addToHistory_frame h d (request_image r) (setPrediction (Some d) st))
    as (_ & Hs & Hp & _).
  simpl. by rewrite Hs, Hp.
Qed.

(** With no turn between the press and the end of the analysis, the
    diagnosis surfaced is the one of the image selected. *)
Lemma uninterrupted_analysis_is_current (h : Host) (st : State) (m : TensorflowModel)
    (uri : string) (d : Diagnosis) :
  model st = Some m → loading st = false → uri ≠ EmptyString →
  analyzeImage_try h m uri = inr d →
  let st' := fst (turns [PickerResolved (Picked uri); DiagnosePressed; AnalysisSettled h]
                        (st, None)) in
  selectedImage st' = Some uri ∧ prediction st' = Some d.
Proof.
  intros Hmodel Hloading Hne Htry. unfold turns. cbn [foldl].
  rewrite turn_PickerResolved.
  rewrite (turn_DiagnosePressed _ _ m uri) by done.
  rewrite turn_AnalysisSettled. cbn [fst].
  destruct (analyzeImage_resume_surfaces h
              {| request_model := m; request_image := uri |}
              (setLoading true (handleImageResult (Picked uri) st)) d Htry) as [-> ->].
  done.
Qed.

(** An image picked while an analysis is in flight: the analysis of the
    earlier image still ends with [setPrediction], after the reset. *)
Lemma stale_diagnosis_is_surfaced (h : Host) (st : State) (m : TensorflowModel)
    (earlier later : string) (d : Diagnosis) :
  model st = Some m → loading st = false → earlier ≠ EmptyString →
  analyzeImage_try h m earlier = inr d →
  let st' := fst (turns [PickerResolved (Picked earlier); DiagnosePressed;
                         PickerResolved (Picked later); AnalysisSettled h]
                        (st, None)) in
  selectedImage st' = Some later ∧ prediction st' = Some d.
Proof.
  intros Hmodel Hloading Hne Htry. unfold turns. cbn [foldl].
  rewrite turn_PickerResolved.
  rewrite (turn_DiagnosePressed _ _ m earlier) by done.
  rewrite turn_PickerResolved, turn_AnalysisSettled. cbn [fst].
  destruct (analyzeImage_resume_surfaces h
              {| request_model := m; request_image := earlier |}
              (handleImageResult (Picked later)
                 (setLoading true (handleImageResult (Picked earlier) st))) d Htry)
    as [-> ->].
  done.
Qed.

(** C9 on the code.  The image "file:///a.jpg" (diagnosed "Healthy Rice
    Leaf") is selected and its analysis started; the image
    "file:///b.jpg" (diagnosed "Bacterial Leaf Blight") is selected
    before that analysis ends.  The prediction is reset at the selection,
    and the analysis then surfaces the diagnosis of the earlier image
    beside the later one. *)
Theorem diagnosis_of_previous_image_surfaced :
  analyzeImage_try sample_host sample_model "file:///a.jpg"
  = inr {| label := Some "Healthy Rice Leaf"; confidence := "60.00%" |}
  ∧ analyzeImage_try sample_host sample_model "file:///b.jpg"
    = inr {| label := Some "Bacterial Leaf Blight"; confidence := "50.00%" |}
  ∧ prediction (fst (turns [PickerResolved (Picked "file:///a.jpg"); DiagnosePressed;
                            PickerResolved (Picked "file:///b.jpg")]
                           (ready_state, None))) = None
  ∧ selectedImage (fst (turns [PickerResolved (Picked "file:///a.jpg"); DiagnosePressed;
                               PickerResolved (Picked "file:///b.jpg");
                               AnalysisSettled sample_host]
                              (ready_state, None))) = Some "file:///b.jpg"
  ∧ prediction (fst (turns [PickerResolved (Picked "file:///a.jpg"); DiagnosePressed;
                            PickerResolved (Picked "file:///b.jpg");
                            AnalysisSettled sample_host]
                           (ready_state, None)))
    = Some {| label := Some "Healthy Rice Leaf"; confidence := "60.00%" |}.
Proof.
  assert (Ha : analyzeImage_try sample_host sample_model "file:///a.jpg"
               = inr {| label := Some "Healthy Rice Leaf"; confidence := "60.00%" |})
    by (vm_compute; reflexivity).
  split; [exact Ha|]. split; [vm_compute; reflexivity|]. split; [reflexivity|].
  apply (stale_diagnosis_is_surfaced sample_host ready_state sample_model
           "file:///a.jpg" "file:///b.jpg");
    [reflexivity | reflexivity | discriminate | exact Ha].
Qed.

(* ===================================================================== *)
(** * Further properties of the tensor encoder *)
(* ===================================================================== *)

Lemma to_number_byte_range (b : byte) :
  ∃ n : Z, 0 ≤ n ≤ 255 ∧ to_number (Some b) = Num (inject_Z n).
Proof.
  exists (Z.of_N (Byte.to_N b)). split; [|reflexivity].
  pose proof (Byte.to_N_bounded b). lia.
Qed.

(** X1.  When the buffer ends on a whole pixel or lacks only its last
    alpha byte (its length is 0 or 3 modulo 4), or is at least
    224 * 224 * 4 bytes long, every entry of the tensor is an integer
    from 0 to 255: no NaN reaches the model. *)
Theorem encode_entries_are_bytes (data : list byte) :
  (length data `mod` 4 = 0 ∨ length data `mod` 4 = 3
   ∨ 224 * 224 * 4 ≤ length data)%nat →
  ∀ (j : nat) (x : number), encode data !! j = Some x →
    ∃ n : Z, 0 ≤ n ≤ 255 ∧ x = Num (inject_Z n).
Proof.
  intros Hshape j x Hx.
  assert (Hj : (j < TENSOR_LENGTH)%nat).
  { apply lookup_lt_Some in Hx. by rewrite encode_length in Hx. }
  assert (∃ k c : nat, j = (3 * k + c)%nat ∧ (c < 3)%nat) as (k & c & -> & Hc).
  { exists (j `div` 3)%nat, (j `mod` 3)%nat. split.
    - apply Nat.div_mod_eq.
    - apply Nat.mod_upper_bound. lia. }
  assert (Hk : (k < 224 * 224)%nat) by (rewrite TENSOR_LENGTH_pixels in Hj; lia).
  destruct (decide (4 * k < length data)%nat) as [Hd|Hd].
  - rewrite encode_lookup_pixel in Hx by done.
    destruct (lookup_lt_is_Some_2 data (4 * k + c)%nat) as [b Hb].
    { pose proof (Nat.div_mod_eq (length data) 4) as Hdiv.
      pose proof (Nat.mod_upper_bound (length data) 4 ltac:(lia)) as Hmod.
      lia. }
    rewrite Hb in Hx. injection Hx as <-. apply to_number_byte_range.
  - rewrite encode_lookup_padding in Hx; [|done|intros k' Hk'; lia].
    injection Hx as <-. exists 0. split; [lia | reflexivity].
Qed.

Lemma encode_entries_are_bytes_witness :
  ∃ n : Z, 0 ≤ n ≤ 255 ∧ Num (inject_Z 50) = Num (inject_Z n).
Proof.
  apply (encode_entries_are_bytes ["010"; "020"; "030"; "255"; "040"; "050"; "060"]%byte
           ltac:(right; left; reflexivity) 4%nat).
  vm_compute. reflexivity.
Defined.

(** X2.  When the buffer is shorter than 224 * 224 * 4 bytes and stops one
    or two bytes into a pixel, the blue entry of that pixel is NaN: the
    read past the end of the buffer gives [undefined], and the store
    converts it. *)
Theorem encode_incomplete_pixel_is_NaN (data : list byte) :
  (length data < 224 * 224 * 4)%nat →
  (length data `mod` 4 = 1 ∨ length data `mod` 4 = 2)%nat →
  encode data !! (3 * (length data `div` 4) + 2)%nat = Some NaN.
Proof.
  intros Hshort Hmod.
  pose proof (Nat.div_mod_eq (length data) 4) as Hdiv.
  set (q := (length data `div` 4)%nat) in *.
  assert (Hq : (q < 224 * 224)%nat) by lia.
  rewrite encode_lookup_pixel; [|lia|lia|rewrite TENSOR_LENGTH_pixels; lia].
  rewrite lookup_ge_None_2 by lia. reflexivity.
Qed.

Lemma encode_incomplete_pixel_is_NaN_witness :
  encode ["010"; "020"; "030"; "255"; "040"]%byte
    !! (3 * (length ["010"; "020"; "030"; "255"; "040"]%byte `div` 4) + 2)%nat
  = Some NaN.
Proof.
  apply (encode_incomplete_pixel_is_NaN ["010"; "020"; "030"; "255"; "040"]%byte).
  - cbn [length]. lia.
  - left. reflexivity.
Defined.

(** X3.  The model is only ever run on one tensor of 150,528 entries: two
    models that answer alike on every such input give the same outcome of
    the pipeline, whatever the decoder returned. *)
Theorem analyzeImage_try_runs_on_full_tensor (h : Host) (m m' : TensorflowModel)
    (image : string) :
  (∀ tensor : list number, length tensor = TENSOR_LENGTH →
     run m [tensor] = run m' [tensor]) →
  analyzeImage_try h m image = analyzeImage_try h m' image.
Proof.
  intros Hsame. unfold analyzeImage_try.
  destruct (manipulateAsync h image) as [?|manipResult]; [done|]. simpl.
  destruct (readAsStringAsync h manipResult) as [?|base64]; [done|]. simpl.
  destruct (jpeg_decode h base64) as [?|rawData]; [done|]. simpl.
  by rewrite (Hsame (encode rawData) (encode_length rawData)).
Qed.

Lemma analyzeImage_try_runs_on_full_tensor_witness :
  analyzeImage_try sample_host sample_model "file:///a.jpg"
  = analyzeImage_try sample_host shape_checking_model "file:///a.jpg".
Proof.
  apply (analyzeImage_try_runs_on_full_tensor sample_host sample_model
           shape_checking_model).
  intros tensor Hlength. unfold shape_checking_model. cbn [run].
  by rewrite decide_True.
Defined.

(* ===================================================================== *)
(** * Further properties of the result interpreter *)
(* ===================================================================== *)

Lemma indexOf_NaN (elements : list number) : indexOf elements NaN = -1.
Proof. apply indexOf_from_absent. intros x _. apply strict_eq_NaN_r. Qed.

(** X4.  A NaN anywhere in a score vector that the call of [Math.max]
    takes (no more scores than the engine's argument limit), whatever its
    other scores: the label is undefined and the confidence is "NaN%". *)
Theorem interpret_NaN_anywhere (limit : N) (f : Q → string) (scores : list number) :
  NaN ∈ scores → (N.of_nat (length scores) ≤ limit)%N →
  interpret_call limit f scores = inr {| label := None; confidence := "NaN%" |}.
Proof.
  intros Hin Hlimit. rewrite interpret_call_within by done. f_equal.
  unfold interpret, Math_max. cbv zeta.
  rewrite (max_scan_NaN NInf scores Hin), indexOf_NaN. reflexivity.
Qed.

Lemma interpret_NaN_anywhere_witness :
  interpret_call 65535 sample_Number_toString [Num (9 # 10); NaN; Num (1 # 10)]
  = inr {| label := None; confidence := "NaN%" |}.
Proof.
  apply (interpret_NaN_anywhere 65535 sample_Number_toString
           [Num (9 # 10); NaN; Num (1 # 10)]).
  - apply list_elem_of_lookup_2 with 1%nat. reflexivity.
  - apply N.leb_le. reflexivity.
Defined.

(** A label that comes out of [interpret] has its advice in the table, and
    the result card shows that advice. *)
Lemma interpreted_label_has_advice_table (f : Q → string) (scores : list number)
    (name : string) :
  label (interpret f scores) = Some name →
  ∃ advice : string,
    DISEASE_ADVICE !! name = Some advice
    ∧ displayed_advice (Some name) = advice.
Proof.
  rewrite interpret_label. unfold array_get.
  destruct (0 <=? indexOf scores (Math_max scores)); [|done].
  intros Hname. apply list_elem_of_lookup_2 in Hname.
  destruct (advice_of_every_label name Hname) as [advice Hadvice].
  exists advice. split; [exact Hadvice|].
  assert (Hnonempty : map_Forall (λ _ advice, advice ≠ EmptyString) DISEASE_ADVICE).
  { apply (bool_decide_unpack _). vm_compute. exact I. }
  unfold displayed_advice, or_else.
  change (property_key (Some name)) with name.
  by rewrite Hadvice, (truthy_Some advice (Hnonempty _ _ Hadvice)).
Qed.

(** X5.  A label that the interpreter returns is a label of the
    vocabulary and has its entry in the advice table: the history entry
    and the result card then carry the same advice, the table's, and
    neither fallback is used. *)
Theorem interpreted_label_has_advice (f : Q → string) (scores : list number)
    (name : string) :
  label (interpret f scores) = Some name →
  name ∈ LABELS
  ∧ ∃ advice : string,
      DISEASE_ADVICE !! name = Some advice
      ∧ history_advice (Some name) = advice
      ∧ displayed_advice (Some name) = advice.
Proof.
  rewrite interpret_label. unfold array_get.
  destruct (0 <=? indexOf scores (Math_max scores)); [|done].
  intros Hname. apply list_elem_of_lookup_2 in Hname.
  split; [exact Hname|].
  destruct (advice_of_every_label name Hname) as [advice Hadvice].
  exists advice. split; [exact Hadvice|].
  assert (Hnonempty : map_Forall (λ _ advice, advice ≠ EmptyString) DISEASE_ADVICE).
  { apply (bool_decide_unpack _). vm_compute. exact I. }
  unfold history_advice, displayed_advice, or_else.
  change (property_key (Some name)) with name.
  rewrite Hadvice, (truthy_Some advice (Hnonempty _ _ Hadvice)). done.
Qed.

Lemma interpreted_label_has_advice_witness :
  "Healthy Rice Leaf" ∈ LABELS
  ∧ ∃ advice : string,
      DISEASE_ADVICE !! "Healthy Rice Leaf" = Some advice
      ∧ history_advice (Some "Healthy Rice Leaf") = advice
      ∧ displayed_advice (Some "Healthy Rice Leaf") = advice.
Proof.
  apply (interpreted_label_has_advice sample_Number_toString spec_scores).
  reflexivity.
Defined.

(** X6.  On a non-empty score vector with no NaN that the call of
    [Math.max] takes, longer than the vocabulary or not, the label is the
    vocabulary's entry at the index of the maximum score, the lowest such
    index: it is undefined exactly when that index is 7 or more. *)
Theorem interpret_label_beyond_vocabulary (limit : N) (f : Q → string)
    (scores : list number) :
  scores ≠ [] → no_NaN scores → (N.of_nat (length scores) ≤ limit)%N →
  ∃ (i : nat) (x : number) (d : Diagnosis),
    scores !! i = Some x
    ∧ (∀ (j : nat) (y : number), scores !! j = Some y → gt y x = false)
    ∧ (∀ (j : nat) (y : number), (j < i)%nat → scores !! j = Some y → gt x y = true)
    ∧ interpret_call limit f scores = inr d
    ∧ label d = LABELS !! i
    ∧ (label d = None ↔ (7 ≤ i)%nat).
Proof.
  intros Hne Hnan Hlimit.
  destruct (indexOf_Math_max scores Hne Hnan) as (i & x & Hidx & Hx & _ & Hmax & Hfirst).
  exists i, x, (interpret f scores).
  split; [done|]. split; [done|]. split; [done|].
  split; [by apply interpret_call_within|].
  rewrite interpret_label, Hidx, array_get_of_nat. split; [done|].
  by rewrite lookup_ge_None.
Qed.

Lemma interpret_label_beyond_vocabulary_witness :
  ∃ (i : nat) (x : number) (d : Diagnosis),
    eight_scores !! i = Some x
    ∧ (∀ (j : nat) (y : number), eight_scores !! j = Some y → gt y x = false)
    ∧ (∀ (j : nat) (y : number), (j < i)%nat → eight_scores !! j = Some y → gt x y = true)
    ∧ interpret_call 65535 sample_Number_toString eight_scores = inr d
    ∧ label d = LABELS !! i
    ∧ (label d = None ↔ (7 ≤ i)%nat).
Proof.
  apply (interpret_label_beyond_vocabulary 65535 sample_Number_toString eight_scores).
  - discriminate.
  - unfold no_NaN, eight_scores. repeat constructor.
  - apply N.leb_le. reflexivity.
Defined.

(** The maximum of a list does not depend on the order of its
    elements. *)
Lemma Math_max_Permutation (values values' : list number) :
  values ≠ [] → no_NaN values → values ≡ₚ values' →
  strict_eq (Math_max values) (Math_max values') = true.
Proof.
  intros Hne Hnan Hperm.
  assert (Hne' : values' ≠ []).
  { intros ->. by apply Permutation_nil_r in Hperm. }
  assert (Hnan' : no_NaN values').
  { unfold no_NaN in *. by rewrite <- Hperm. }
  destruct (Math_max_spec values Hne Hnan) as (Hm & Hin & Hall).
  destruct (Math_max_spec values' Hne' Hnan') as (Hm' & Hin' & Hall').
  rewrite Forall_forall in Hall, Hall'.
  destruct (strict_eq (Math_max values) (Math_max values')) eqn:Heq; [done|].
  pose proof (gt_total _ _ Hm Hm' (Hall' _ ltac:(by rewrite <- Hperm)) Heq) as Hgt.
  rewrite (Hall _ ltac:(by rewrite Hperm)) in Hgt. done.
Qed.

(** X7.  The confidence does not depend on the order of the scores:
    permuting a score vector with no NaN whose maximum is finite and
    below 10^19 in absolute value leaves the confidence unchanged. *)
Theorem confidence_order_independent (f : Q → string) (scores scores' : list number)
    (m : Q) :
  no_NaN scores → scores ≡ₚ scores' →
  Math_max scores = Num m → (Qabs (m * 100) < 10 ^ 21)%Q →
  confidence (interpret f scores') = confidence (interpret f scores).
Proof.
  intros Hnan Hperm Hmax Hbound.
  assert (Hne : scores ≠ []) by (intros ->; discriminate Hmax).
  pose proof (Math_max_Permutation scores scores' Hne Hnan Hperm) as Heq.
  rewrite !interpret_confidence. f_equal.
  rewrite Hmax in Heq |- *.
  destruct (Math_max scores') as [| | |m']; try discriminate Heq.
  apply strict_eq_Num in Heq. simpl mul. symmetry.
  apply toFixed2_Qeq; [by rewrite Heq | done].
Qed.

Lemma confidence_order_independent_witness :
  confidence (interpret sample_Number_toString (rev spec_scores))
  = confidence (interpret sample_Number_toString spec_scores).
Proof.
  apply (confidence_order_independent sample_Number_toString spec_scores
           (rev spec_scores) (10066330 # 16777216)).
  - unfold no_NaN, spec_scores. repeat constructor.
  - symmetry. apply Permutation_rev.
  - reflexivity.
  - reflexivity.
Defined.

(** X8.  When the maximum score is a probability (between 0 and 1), the
    confidence is a number of hundredths from 0 to 10000 written with two
    decimals and no sign: it lies between "0.00%" and "100.00%". *)
Theorem confidence_of_probability (f : Q → string) (scores : list number) (m : Q) :
  Math_max scores = Num m → (0 <= m)%Q → (m <= 1)%Q →
  ∃ n : Z,
    0 ≤ n ≤ 10000
    ∧ confidence (interpret f scores) = two_decimal_places n +:+ "%".
Proof.
  intros Hmax H0 H1.
  assert (Hbound : (Qabs (m * 100) < 10 ^ 21)%Q).
  { rewrite Qabs_pos by lra. apply Qle_lt_trans with 100%Q; [lra | reflexivity]. }
  exists (toFixed_n (Qabs (m * 100))). split.
  - split; [apply toFixed_n_nonneg, Qabs_nonneg|].
    unfold toFixed_n. rewrite Qabs_pos by lra.
    change 10000 with (Qfloor (10000 + (1 # 2))).
    apply Qfloor_resp_le. lra.
  - rewrite interpret_confidence, Hmax. simpl mul. unfold toFixed2.
    destruct (Qle_bool (10 ^ 21) (Qabs (m * 100))) eqn:Hbig.
    { apply Qle_bool_iff in Hbig. lra. }
    rewrite split_fraction_digits by apply toFixed_n_nonneg, Qabs_nonneg.
    destruct (Qlt_le_dec (m * 100) 0); [lra | reflexivity].
Qed.

Lemma confidence_of_probability_witness :
  ∃ n : Z,
    0 ≤ n ≤ 10000
    ∧ confidence (interpret sample_Number_toString tied_scores)
      = two_decimal_places n +:+ "%".
Proof.
  apply (confidence_of_probability sample_Number_toString tied_scores (1 # 2)).
  - reflexivity.
  - discriminate.
  - discriminate.
Defined.

(* ===================================================================== *)
(** * Further properties of the request handlers *)
(* ===================================================================== *)

(** X9.  A request made while the model is not loaded or no image is
    selected (the empty string counts as none) runs no stage of the
    pipeline: it shows the alert "Model not ready yet." and leaves
    everything else, [loading] included, as it was. *)
Theorem analyzeImage_not_ready (h : Host) (st : State) :
  model st = None ∨ truthy (selectedImage st) = None →
  analyzeImage h st = Alert_alert "Error" "Model not ready yet." st.
Proof.
  intros Hguard. unfold analyzeImage, analyzeImage_begin.
  destruct Hguard as [-> | ->]; [reflexivity|].
  by destruct (model st).
Qed.

Lemma analyzeImage_not_ready_witness :
  analyzeImage broken_decoder_host ready_state
  = Alert_alert "Error" "Model not ready yet." ready_state.
Proof.
  apply (analyzeImage_not_ready broken_decoder_host ready_state).
  right. reflexivity.
Defined.

(** What [finally] and the frame of [addToHistory] give for a request that
    passes the guard. *)
Lemma analyzeImage_passes_guard (h : Host) (st : State) (m : TensorflowModel)
    (image : string) :
  model st = Some m → selectedImage st = Some image → image ≠ EmptyString →
  loading (analyzeImage h st) = false
  ∧ model (analyzeImage h st) = model st
  ∧ selectedImage (analyzeImage h st) = selectedImage st.
Proof.
  intros Hmodel Himage Hne.
  unfold analyzeImage, analyzeImage_begin.
  rewrite Hmodel, Himage, (truthy_Some image Hne).
  unfold analyzeImage_resume. cbn [request_model request_image].
  destruct (analyzeImage_try h m image) as [e|d].
  - simpl. by rewrite Hmodel, Himage.
  - destruct (addToHistory_frame h d image (setPrediction (Some d) (setLoading true st)))
      as (Hm & Hs & _).
    cbn [setLoading loading model selectedImage]. rewrite Hm, Hs.
    simpl. by rewrite Hmodel, Himage.
Qed.

(** X10.  A request that passes the guard always ends with [loading]
    reset, whether the pipeline succeeded or failed and whether the
    history was saved or not, and it changes neither the model nor the
    selected image. *)
Theorem analyzeImage_finally (h : Host) (st : State) (m : TensorflowModel)
    (image : string) :
  model st = Some m → selectedImage st = Some image → image ≠ EmptyString →
  loading (analyzeImage h st) = false
  ∧ model (analyzeImage h st) = model st
  ∧ selectedImage (analyzeImage h st) = selectedImage st.
Proof. apply analyzeImage_passes_guard. Qed.

Lemma analyzeImage_finally_witness :
  loading (analyzeImage full_store_host (handleImageResult (Picked "file:///a.jpg") ready_state))
  = false
  ∧ model (analyzeImage full_store_host (handleImageResult (Picked "file:///a.jpg") ready_state))
    = model (handleImageResult (Picked "file:///a.jpg") ready_state)
  ∧ selectedImage (analyzeImage full_store_host
                     (handleImageResult (Picked "file:///a.jpg") ready_state))
    = selectedImage (handleImageResult (Picked "file:///a.jpg") ready_state).
Proof.
  apply (analyzeImage_finally full_store_host _ sample_model "file:///a.jpg").
  - reflexivity.
  - reflexivity.
  - discriminate.
Defined.






Lemma addToHistory_alerts (h : Host) (d : Diagnosis) (uri : string) (st : State) :
  alerts (addToHistory h d uri st) = alerts st.
Proof. by destruct (addToHistory_frame h d uri st) as (_ & _ & _ & _ & ?). Qed.

Lemma addToHistory_model (h : Host) (d : Diagnosis) (uri : string) (st : State) :
  model (addToHistory h d uri st) = model st.
Proof. by destruct (addToHistory_frame h d uri st) as (? & _). Qed.

Lemma turn_model_alerts (e : event) (sys : State * option Request) :
  model (fst (turn e sys)) = model (fst sys)
  ∧ alerts (fst sys) `prefix_of` alerts (fst (turn e sys)).
Proof.
  destruct sys as [st f]. cbn [fst].
  destruct e as [picked| |h].
  - rewrite turn_PickerResolved. cbn [fst]. by destruct picked.
  - unfold turn. destruct (loading st); [done|].
    unfold analyzeImage_begin.
    destruct (model st) as [m|] eqn:Hm;
      [destruct (truthy (selectedImage st))|]; cbn [fst]; simpl;
      rewrite ?Hm; (split; [done|]); try done; by apply prefix_app_r.
  - destruct f as [r|]; [|done].
    rewrite turn_AnalysisSettled. cbn [fst]. unfold analyzeImage_resume.
    destruct (analyzeImage_try h (request_model r) (request_image r)) as [err|d].
    + simpl. split; [done|]. by apply prefix_app_r.
    + cbn [setLoading model alerts].
      by rewrite addToHistory_model, addToHistory_alerts.
Qed.

(** X12.  No handler replaces or drops the model once it is loaded, and
    none removes an alert: through any sequence of events the model is
    the same and the alerts shown before are the first of those shown
    after. *)
Theorem turns_keep_model_and_alerts (events : list event) (sys : State * option Request) :
  model (fst (turns events sys)) = model (fst sys)
  ∧ alerts (fst sys) `prefix_of` alerts (fst (turns events sys)).
Proof.
  revert sys. unfold turns.
  induction events as [|e events IH]; intros sys; [done|].
  cbn [foldl]. destruct (IH (turn e sys)) as [Hm Ha].
  destruct (turn_model_alerts e sys) as [Hm' Ha'].
  split; [congruence | by etrans].
Qed.

Lemma turn_prediction_has_image (e : event) (sys : State * option Request) :
  e ≠ PickerResolved (Picked EmptyString) →
  (is_Some (prediction (fst sys)) ∨ is_Some (snd sys) →
   is_Some (truthy (selectedImage (fst sys)))) →
  is_Some (prediction (fst (turn e sys))) ∨ is_Some (snd (turn e sys)) →
  is_Some (truthy (selectedImage (fst (turn e sys)))).
Proof.
  destruct sys as [st f]. cbn [fst snd]. intros Hevent Hinv.
  destruct e as [picked| |h].
  - rewrite turn_PickerResolved. cbn [fst snd].
    destruct picked as [|[|c uri]]; [exact Hinv | done | by eauto].
  - unfold turn. destruct (loading st); [exact Hinv|].
    unfold analyzeImage_begin.
    destruct (model st) as [m|]; [|exact Hinv].
    destruct (selectedImage st) as [[|c uri]|] eqn:Hs; cbn [truthy fst snd];
      simpl; rewrite ?Hs; cbn [truthy]; eauto.
  - destruct f as [r|]; [|exact Hinv].
    rewrite turn_AnalysisSettled. cbn [fst snd]. intros _.
    unfold analyzeImage_resume.
    destruct (analyzeImage_try h (request_model r) (request_image r)) as [err|d].
    + simpl. apply Hinv. right. by eauto.
    + destruct (addToHistory_frame h d (request_image r) (setPrediction (Some d) st))
        as (_ & Hs & _).
      cbn [setLoading selectedImage]. rewrite Hs. simpl. apply Hinv. right. by eauto.
Qed.

Lemma turns_prediction_has_image (events : list event) (sys : State * option Request) :
  PickerResolved (Picked EmptyString) ∉ events →
  (is_Some (prediction (fst sys)) ∨ is_Some (snd sys) →
   is_Some (truthy (selectedImage (fst sys)))) →
  is_Some (prediction (fst (turns events sys))) ∨ is_Some (snd (turns events sys)) →
  is_Some (truthy (selectedImage (fst (turns events sys)))).
Proof.
  revert sys. unfold turns.
  induction events as [|e events IH]; intros sys Hevents Hsys; [exact Hsys|].
  cbn [foldl]. apply IH.
  - intros Hin. apply Hevents. by right.
  - apply turn_prediction_has_image; [|exact Hsys].
    intros ->. apply Hevents. by left.
Qed.

(** X13.  As long as no picker returns an empty URI, a diagnosis is never
    shown without its image: through any sequence of events, if a
    prediction is set or a request is in flight then a non-empty image
    is selected, and whenever the view has the result card it has the
    image card, provided this held at the start.  (No handler clears the
    selected image; an empty URI would count as no image.) *)
Theorem result_card_has_image_card (events : list event) (sys : State * option Request) :
  PickerResolved (Picked EmptyString) ∉ events →
  (is_Some (prediction (fst sys)) ∨ is_Some (snd sys) →
   is_Some (truthy (selectedImage (fst sys)))) →
  (is_Some (prediction (fst (turns events sys))) ∨ is_Some (snd (turns events sys)) →
   is_Some (truthy (selectedImage (fst (turns events sys)))))
  ∧ (∀ v : MainView, render (fst (turns events sys)) = Main v →
       is_Some (resultCard v) → is_Some (imageCard v)).
Proof.
  intros Hevents Hsys.
  pose proof (turns_prediction_has_image events sys Hevents Hsys) as Hinv.
  split; [exact Hinv|].
  intros v. unfold render. destruct (model _); [|done].
  intros [= <-]. cbn [resultCard imageCard]. rewrite !fmap_is_Some.
  intros Hp. apply Hinv. by left.
Qed.

Lemma result_card_has_image_card_witness :
  (is_Some (prediction (fst (turns [PickerResolved (Picked "file:///a.jpg"); DiagnosePressed;
                                    AnalysisSettled sample_host]
                               (ready_state, None))))
   ∨ is_Some (snd (turns [PickerResolved (Picked "file:///a.jpg"); DiagnosePressed;
                          AnalysisSettled sample_host]
                     (ready_state, None))) →
   is_Some (truthy (selectedImage (fst (turns [PickerResolved (Picked "file:///a.jpg");
                                               DiagnosePressed; AnalysisSettled sample_host]
                                          (ready_state, None))))))
  ∧ (∀ v : MainView,
       render (fst (turns [PickerResolved (Picked "file:///a.jpg"); DiagnosePressed;
                           AnalysisSettled sample_host]
                      (ready_state, None))) = Main v →
       is_Some (resultCard v) → is_Some (imageCard v)).
Proof.
  apply (result_card_has_image_card
           [PickerResolved (Picked "file:///a.jpg"); DiagnosePressed;
            AnalysisSettled sample_host] (ready_state, None)).
  - intros Hin. repeat (apply elem_of_cons in Hin as [Hin|Hin]; [discriminate Hin|]).
    by apply elem_of_nil in Hin.
  - cbn [fst snd]. intros [[? [=]] | [? [=]]].
Defined.

(** With an empty URI the card is lost: an image is picked and its
    analysis started, a picker then returns an empty URI, and the
    analysis ends with a result card and no image card. *)
Lemma empty_uri_loses_image_card :
  ∃ v : MainView,
    render (fst (turns [PickerResolved (Picked "file:///a.jpg"); DiagnosePressed;
                        PickerResolved (Picked EmptyString); AnalysisSettled sample_host]
                   (ready_state, None))) = Main v
    ∧ is_Some (resultCard v) ∧ imageCard v = None.
Proof. eexists. vm_compute. split; [reflexivity|]. split; [by eexists | reflexivity]. Qed.

(* ===================================================================== *)
(** * Further properties of the history *)
(* ===================================================================== *)

(** X14.  [addToHistory] reads and writes the key "leaf_history" only:
    whatever happens, every other key of the store keeps its value, and
    the prediction, the alerts, the selected image and [loading] are
    untouched. *)
Theorem addToHistory_only_touches_leaf_history (h : Host) (d : Diagnosis) (uri : string)
    (st : State) (key : string) :
  key ≠ "leaf_history" →
  storage (addToHistory h d uri st) !! key = storage st !! key
  ∧ prediction (addToHistory h d uri st) = prediction st
  ∧ alerts (addToHistory h d uri st) = alerts st
  ∧ selectedImage (addToHistory h d uri st) = selectedImage st
  ∧ loading (addToHistory h d uri st) = loading st.
Proof.
  intros Hkey.
  destruct (addToHistory_frame h d uri st) as (_ & Hs & Hp & Hl & Ha).
  split; [|done].
  unfold addToHistory, addToHistory_try, AsyncStorage_getItem, AsyncStorage_setItem.
  destruct (getItem_fault h); [done|]. simpl.
  destruct (parse_history h (storage st !! "leaf_history")) as [?|parsed]; [done|]. simpl.
  destruct (spread parsed) as [?|previous]; [done|]. simpl.
  destruct (setItem_fault h); [done|]. simpl.
  by rewrite lookup_insert_ne.
Qed.

Lemma addToHistory_only_touches_leaf_history_witness :
  storage (addToHistory sample_host {| label := Some "Brown Spot"; confidence := "91.20%" |}
             "file:///a.jpg" (set_storage {[ "theme" := "dark" ]} ready_state)) !! "theme"
  = storage (set_storage {[ "theme" := "dark" ]} ready_state) !! "theme"
  ∧ prediction (addToHistory sample_host
                  {| label := Some "Brown Spot"; confidence := "91.20%" |}
                  "file:///a.jpg" (set_storage {[ "theme" := "dark" ]} ready_state))
    = prediction (set_storage {[ "theme" := "dark" ]} ready_state)
  ∧ alerts (addToHistory sample_host
              {| label := Some "Brown Spot"; confidence := "91.20%" |}
              "file:///a.jpg" (set_storage {[ "theme" := "dark" ]} ready_state))
    = alerts (set_storage {[ "theme" := "dark" ]} ready_state)
  ∧ selectedImage (addToHistory sample_host
                     {| label := Some "Brown Spot"; confidence := "91.20%" |}
                     "file:///a.jpg" (set_storage {[ "theme" := "dark" ]} ready_state))
    = selectedImage (set_storage {[ "theme" := "dark" ]} ready_state)
  ∧ loading (addToHistory sample_host
               {| label := Some "Brown Spot"; confidence := "91.20%" |}
               "file:///a.jpg" (set_storage {[ "theme" := "dark" ]} ready_state))
    = loading (set_storage {[ "theme" := "dark" ]} ready_state).
Proof.
  apply (addToHistory_only_touches_leaf_history sample_host).
  discriminate.
Defined.

(** X15.  A stored history that cannot be used is never repaired: when
    [JSON.parse] throws on the stored text, or the parsed value is not
    iterable (an object, a number, [null]), [addToHistory] logs one line
    and leaves the store exactly as it was, so the next call meets the
    same text again. *)
Theorem addToHistory_keeps_unusable_history (h : Host) (d : Diagnosis) (uri : string)
    (st : State) (e : error) :
  parse_history h (storage st !! "leaf_history") ≫= spread = inl e →
  getItem_fault h = None →
  addToHistory h d uri st
  = console_error ("Failed to save history: " ++ message_of e) st.
Proof.
  intros Hparse Hget.
  unfold addToHistory, addToHistory_try, AsyncStorage_getItem. rewrite Hget. simpl.
  destruct (parse_history h (storage st !! "leaf_history")) as [e'|parsed]; simpl in *.
  - by injection Hparse as ->.
  - rewrite Hparse. reflexivity.
Qed.

Lemma addToHistory_keeps_unusable_history_witness :
  addToHistory object_history_host {| label := Some "Brown Spot"; confidence := "91.20%" |}
    "file:///a.jpg" (set_storage {[ "leaf_history" := "{}" ]} ready_state)
  = console_error
      ("Failed to save history: " ++ message_of (Error "TypeError: value is not iterable"))
      (set_storage {[ "leaf_history" := "{}" ]} ready_state).
Proof.
  apply (addToHistory_keeps_unusable_history object_history_host).
  - reflexivity.
  - reflexivity.
Defined.

(** X16.  With no fault of the store and a stored history that parses to
    an array, the write takes place: the store then holds, under
    "leaf_history", the text of the new entry followed by the first 19
    of the previous entries. *)
Theorem addToHistory_writes (h : Host) (d : Diagnosis) (uri : string)
    (st : State) (previous : list jsval) :
  getItem_fault h = None → setItem_fault h = None →
  parse_history h (storage st !! "leaf_history") = inr (JArray previous) →
  storage (addToHistory h d uri st)
  = <["leaf_history" :=
        JSON_stringify h
          (JArray (newEntry (Date_now h) (Date_toLocaleString h) d uri
                   :: take 19 previous))]> (storage st)
  ∧ console (addToHistory h d uri st) = console st.
Proof.
  intros Hget Hset Hparse. unfold addToHistory.
  rewrite (addToHistory_try_succeeds h d uri (storage st) previous Hget Hset Hparse).
  split; reflexivity.
Qed.

Lemma addToHistory_writes_witness :
  storage (addToHistory sample_host {| label := Some "Brown Spot"; confidence := "91.20%" |}
             "file:///a.jpg" ready_state)
  = <["leaf_history" :=
        JSON_stringify sample_host
          (JArray (newEntry (Date_now sample_host) (Date_toLocaleString sample_host)
                     {| label := Some "Brown Spot"; confidence := "91.20%" |}
                     "file:///a.jpg"
                   :: take 19 []))]> (storage ready_state)
  ∧ console (addToHistory sample_host
               {| label := Some "Brown Spot"; confidence := "91.20%" |}
               "file:///a.jpg" ready_state)
    = console ready_state.
Proof.
  apply (addToHistory_writes sample_host).
  - reflexivity.
  - reflexivity.
  - reflexivity.
Defined.

(** X17.  The list that is written has one entry more than the stored
    one up to 20, the previous entries keep their order one place
    further down, and from 20 stored entries on the oldest ones are
    dropped. *)
Theorem history_shifts_previous_entries (entry : jsval) (previous : list jsval) :
  length (slice_0_20 (updatedHistory entry previous))
  = Nat.min (S (length previous)) 20
  ∧ slice_0_20 (updatedHistory entry previous) !! 0%nat = Some entry
  ∧ (∀ i : nat, (i < 19)%nat →
       slice_0_20 (updatedHistory entry previous) !! S i = previous !! i)
  ∧ (∀ i : nat, (19 ≤ i)%nat →
       slice_0_20 (updatedHistory entry previous) !! S i = None).
Proof.
  unfold slice_0_20, updatedHistory. split; [|split; [|split]].
  - rewrite length_take. cbn [length]. lia.
  - reflexivity.
  - intros i Hi. change (take 20 (entry :: previous)) with (entry :: take 19 previous).
    simpl. by rewrite lookup_take_lt.
  - intros i Hi. apply lookup_ge_None_2. rewrite length_take. cbn [length]. lia.
Qed.

(** X18.  With nothing under "leaf_history", or the empty string, the
    history starts from the empty list without a call of [JSON.parse]:
    the new entry is stored alone, whatever [JSON.parse] would do. *)
Theorem addToHistory_first_entry (h : Host) (d : Diagnosis) (uri : string) (st : State) :
  truthy (storage st !! "leaf_history") = None →
  getItem_fault h = None → setItem_fault h = None →
  storage (addToHistory h d uri st)
  = <["leaf_history" :=
        JSON_stringify h
          (JArray [newEntry (Date_now h) (Date_toLocaleString h) d uri])]> (storage st).
Proof.
  intros Hnone Hget Hset.
  assert (Hparse : parse_history h (storage st !! "leaf_history") = inr (JArray [])).
  { unfold parse_history. by rewrite Hnone. }
  unfold addToHistory.
  by rewrite (addToHistory_try_succeeds h d uri (storage st) [] Hget Hset Hparse).
Qed.

Lemma addToHistory_first_entry_witness :
  storage (addToHistory object_history_host
             {| label := Some "Brown Spot"; confidence := "91.20%" |}
             "file:///a.jpg" ready_state)
  = <["leaf_history" :=
        JSON_stringify object_history_host
          (JArray [newEntry (Date_now object_history_host)
                     (Date_toLocaleString object_history_host)
                     {| label := Some "Brown Spot"; confidence := "91.20%" |}
                     "file:///a.jpg"])]> (storage ready_state).
Proof.
  apply (addToHistory_first_entry object_history_host).
  - reflexivity.
  - reflexivity.
  - reflexivity.
Defined.

(** X19.  A request whose pipeline succeeds, with no fault of the store
    and a stored history that parses to an array: the diagnosis is the
    prediction, no alert is added, [loading] is reset, and the history
    gains an entry made of that diagnosis and of the image analysed. *)
Theorem successful_request_is_recorded (h : Host) (st : State) (m : TensorflowModel)
    (image : string) (d : Diagnosis) (previous : list jsval) :
  model st = Some m → selectedImage st = Some image → image ≠ EmptyString →
  analyzeImage_try h m image = inr d →
  getItem_fault h = None → setItem_fault h = None →
  parse_history h (storage st !! "leaf_history") = inr (JArray previous) →
  prediction (analyzeImage h st) = Some d
  ∧ alerts (analyzeImage h st) = alerts st
  ∧ loading (analyzeImage h st) = false
  ∧ storage (analyzeImage h st)
    = <["leaf_history" :=
          JSON_stringify h
            (JArray (newEntry (Date_now h) (Date_toLocaleString h) d image
                     :: take 19 previous))]> (storage st).
Proof.
  intros Hmodel Himage Hne Htry Hget Hset Hparse.
  unfold analyzeImage, analyzeImage_begin.
  rewrite Hmodel, Himage, (truthy_Some image Hne).
  rewrite (analyzeImage_resume_success h _ _ d) by exact Htry.
  cbn [request_image]. unfold addToHistory. cbn [setPrediction setLoading storage].
  rewrite (addToHistory_try_succeeds h d image (storage st) previous Hget Hset Hparse).
  done.
Qed.

Lemma successful_request_is_recorded_witness :
  prediction (analyzeImage sample_host (handleImageResult (Picked "file:///a.jpg") ready_state))
  = Some {| label := Some "Healthy Rice Leaf"; confidence := "60.00%" |}
  ∧ alerts (analyzeImage sample_host (handleImageResult (Picked "file:///a.jpg") ready_state))
    = alerts (handleImageResult (Picked "file:///a.jpg") ready_state)
  ∧ loading (analyzeImage sample_host (handleImageResult (Picked "file:///a.jpg") ready_state))
    = false
  ∧ storage (analyzeImage sample_host (handleImageResult (Picked "file:///a.jpg") ready_state))
    = <["leaf_history" :=
          JSON_stringify sample_host
            (JArray (newEntry (Date_now sample_host) (Date_toLocaleString sample_host)
                       {| label := Some "Healthy Rice Leaf"; confidence := "60.00%" |}
                       "file:///a.jpg"
                     :: take 19 []))]>
        (storage (handleImageResult (Picked "file:///a.jpg") ready_state)).
Proof.
  apply (successful_request_is_recorded sample_host _ sample_model "file:///a.jpg").
  - reflexivity.
  - reflexivity.
  - discriminate.
  - vm_compute. reflexivity.
  - reflexivity.
  - reflexivity.
  - reflexivity.
Defined.

(** X20.  With no turn of the event loop between the press of "Diagnose
    Disease" and the end of the analysis, the diagnosis that is surfaced
    is the one of the image that is selected. *)
Theorem uninterrupted_analysis_surfaces_current (h : Host) (st : State)
    (m : TensorflowModel) (uri : string) (d : Diagnosis) :
  model st = Some m → loading st = false → uri ≠ EmptyString →
  analyzeImage_try h m uri = inr d →
  selectedImage (fst (turns [PickerResolved (Picked uri); DiagnosePressed;
                             AnalysisSettled h] (st, None))) = Some uri
  ∧ prediction (fst (turns [PickerResolved (Picked uri); DiagnosePressed;
                            AnalysisSettled h] (st, None))) = Some d.
Proof. apply uninterrupted_analysis_is_current. Qed.

Lemma uninterrupted_analysis_surfaces_current_witness :
  selectedImage (fst (turns [PickerResolved (Picked "file:///b.jpg"); DiagnosePressed;
                             AnalysisSettled sample_host] (ready_state, None)))
  = Some "file:///b.jpg"
  ∧ prediction (fst (turns [PickerResolved (Picked "file:///b.jpg"); DiagnosePressed;
                            AnalysisSettled sample_host] (ready_state, None)))
    = Some {| label := Some "Bacterial Leaf Blight"; confidence := "50.00%" |}.
Proof.
  apply (uninterrupted_analysis_surfaces_current sample_host ready_state sample_model).
  - reflexivity.
  - reflexivity.
  - discriminate.
  - vm_compute. reflexivity.
Defined.

(* ===================================================================== *)
(** * Properties of the pickers, of the model loading and of the view *)
(* ===================================================================== *)

(** X21.  [pickImage] and [takePhoto] clear the prediction only when a
    picker returns an image, which they then select.  A cancelled picker
    or a rejected promise leaves the whole state as it was; a refused
    camera permission adds the alert "Permission Refused" without
    launching the camera and leaves the selected image and the
    prediction as they were.  Neither handler touches the model,
    [loading] or the store. *)
Theorem pickers_select_or_keep (p : Pickers) (st : State) :
  (∀ uri, launchImageLibraryAsync p = inr (Picked uri) →
     selectedImage (pickImage p st) = Some uri ∧ prediction (pickImage p st) = None)
  ∧ ((∀ uri, launchImageLibraryAsync p ≠ inr (Picked uri)) → pickImage p st = st)
  ∧ (∀ uri, requestCameraPermissionsAsync p = inr true →
       launchCameraAsync p = inr (Picked uri) →
       selectedImage (takePhoto p st) = Some uri ∧ prediction (takePhoto p st) = None)
  ∧ (requestCameraPermissionsAsync p = inr true →
     (∀ uri, launchCameraAsync p ≠ inr (Picked uri)) → takePhoto p st = st)
  ∧ ((∃ e, requestCameraPermissionsAsync p = inl e) → takePhoto p st = st)
  ∧ (requestCameraPermissionsAsync p = inr false →
     takePhoto p st
     = Alert_alert "Permission Refused" "You need to allow camera access." st)
  ∧ (∀ st', st' = pickImage p st ∨ st' = takePhoto p st →
       model st' = model st ∧ loading st' = loading st ∧ storage st' = storage st).
Proof.
  unfold pickImage, takePhoto.
  split; [|split; [|split; [|split; [|split; [|split]]]]].
  - by intros uri ->.
  - intros Hnone. destruct (launchImageLibraryAsync p) as [?|[|uri]]; [done..|].
    by destruct (Hnone uri).
  - by intros uri -> ->.
  - intros -> Hnone. destruct (launchCameraAsync p) as [?|[|uri]]; [done..|].
    by destruct (Hnone uri).
  - by intros [e ->].
  - by intros ->.
  - intros st' [-> | ->].
    + by destruct (launchImageLibraryAsync p) as [?|[|?]].
    + destruct (requestCameraPermissionsAsync p) as [?|[|]]; [done| |done].
      by destruct (launchCameraAsync p) as [?|[|?]].
Qed.

(** X22.  After the loading effect the model is set exactly when it was
    set before or the asset has a [localUri] and [loadTensorflowModel]
    resolved; the loading view is shown exactly in the other case, so a
    failed load leaves the application on it. *)
Theorem loadModel_sets_model (localUri : option string)
    (loadTensorflowModel : string → outcome TensorflowModel) (st : State) :
  (is_Some (model (loadModel localUri loadTensorflowModel st))
   ↔ is_Some (model st)
     ∨ ∃ url loadedModel, truthy localUri = Some url
                          ∧ loadTensorflowModel url = inr loadedModel)
  ∧ (render (loadModel localUri loadTensorflowModel st) = LoadingView
     ↔ model (loadModel localUri loadTensorflowModel st) = None).
Proof.
  split.
  - unfold loadModel. destruct (truthy localUri) as [url|].
    + destruct (loadTensorflowModel url) as [e|loadedModel] eqn:Hload; simpl.
      * split; [by left|]. intros [?|(? & ? & [= <-] & ?)]; [done | congruence].
      * split; [|by eauto]. intros _. right. by eauto.
    + split; [by left|]. by intros [?|(? & ? & [=] & _)].
  - unfold render. by destruct (model _).
Qed.

(** X23.  A model that failed to load blocks every request: with no model
    before, and a missing [localUri] or a rejected load, a call of
    [analyzeImage] afterwards only shows "Model not ready yet." and
    leaves no prediction. *)
Theorem load_failure_blocks_analysis (localUri : option string)
    (loadTensorflowModel : string → outcome TensorflowModel) (st : State) (h : Host) :
  model st = None →
  (∀ url, truthy localUri = Some url → ∃ e, loadTensorflowModel url = inl e) →
  alerts (analyzeImage h (loadModel localUri loadTensorflowModel st))
  = alerts st ++ [("Error", "Model not ready yet.")]
  ∧ prediction (analyzeImage h (loadModel localUri loadTensorflowModel st))
    = prediction st
  ∧ render (analyzeImage h (loadModel localUri loadTensorflowModel st)) = LoadingView.
Proof.
  intros Hmodel Hfail.
  assert (Hnone : model (loadModel localUri loadTensorflowModel st) = None
                  ∧ alerts (loadModel localUri loadTensorflowModel st) = alerts st
                  ∧ prediction (loadModel localUri loadTensorflowModel st) = prediction st).
  { unfold loadModel. destruct (truthy localUri) as [url|]; [|done].
    destruct (Hfail url eq_refl) as [e ->]. done. }
  destruct Hnone as (Hm & Ha & Hp).
  unfold analyzeImage, analyzeImage_begin, render. rewrite Hm. simpl.
  by rewrite Hm, Ha, Hp.
Qed.

Lemma load_failure_blocks_analysis_witness :
  alerts (analyzeImage sample_host
            (loadModel (Some "file:///model.tflite")
               (λ _, inl (Error "Failed to load model")) (setModel None ready_state)))
  = alerts (setModel None ready_state) ++ [("Error", "Model not ready yet.")]
  ∧ prediction (analyzeImage sample_host
                  (loadModel (Some "file:///model.tflite")
                     (λ _, inl (Error "Failed to load model")) (setModel None ready_state)))
    = prediction (setModel None ready_state)
  ∧ render (analyzeImage sample_host
              (loadModel (Some "file:///model.tflite")
                 (λ _, inl (Error "Failed to load model")) (setModel None ready_state)))
    = LoadingView.
Proof.
  apply (load_failure_blocks_analysis (Some "file:///model.tflite")
           (λ _, inl (Error "Failed to load model")) (setModel None ready_state)
           sample_host).
  - reflexivity.
  - intros url _. by eexists.
Defined.

(** What a successful pipeline returns is the interpretation of some score
    vector. *)
Lemma analyzeImage_try_interprets (h : Host) (m : TensorflowModel) (image : string)
    (d : Diagnosis) :
  analyzeImage_try h m image = inr d →
  ∃ probabilities, d = interpret (Number_toString h) probabilities.
Proof.
  unfold analyzeImage_try.
  destruct (manipulateAsync h image) as [?|manipResult]; [done|]. simpl.
  destruct (readAsStringAsync h manipResult) as [?|base64]; [done|]. simpl.
  destruct (jpeg_decode h base64) as [?|rawData]; [done|]. simpl.
  destruct (run m [encode rawData]) as [?|outputs]; [done|]. simpl.
  destruct (first_output outputs) as [?|probabilities]; [done|]. simpl.
  intros Hcall. exists probabilities. by apply interpret_call_returns in Hcall as [_ ->].
Qed.

(** X24.  After a request whose pipeline succeeds the view has no welcome
    card, the image card of the image with "Diagnose Disease" enabled
    again, and the result card of the diagnosis; when the diagnosis has a
    label, the advice on the card is the advice table's, not the
    fallback. *)
Theorem render_after_success (h : Host) (st : State) (m : TensorflowModel)
    (image : string) (d : Diagnosis) :
  model st = Some m → selectedImage st = Some image → image ≠ EmptyString →
  analyzeImage_try h m image = inr d →
  render (analyzeImage h st)
  = Main {| welcomeCard := false;
            imageCard := Some (image, false);
            resultCard := Some (confidence d, label d, displayed_advice (label d)) |}
  ∧ (∀ name, label d = Some name →
       DISEASE_ADVICE !! name = Some (displayed_advice (label d))).
Proof.
  intros Hmodel Himage Hne Htry. split.
  - destruct (analyzeImage_passes_guard h st m image Hmodel Himage Hne) as (Hl & Hm & Hs).
    destruct (analyzeImage_success_surfaces h st m image d Hmodel Himage Hne Htry)
      as [Hp _].
    unfold render. rewrite Hm, Hmodel, Hs, Himage, Hp, Hl, (truthy_Some image Hne).
    reflexivity.
  - intros name Hname.
    destruct (analyzeImage_try_interprets h m image d Htry) as [probabilities ->].
    destruct (interpreted_label_has_advice_table (Number_toString h) probabilities name Hname)
      as (advice & -> & Hadvice).
    by rewrite Hname, Hadvice.
Qed.

Lemma render_after_success_witness :
  render (analyzeImage sample_host (handleImageResult (Picked "file:///a.jpg") ready_state))
  = Main {| welcomeCard := false;
            imageCard := Some ("file:///a.jpg", false);
            resultCard :=
              Some (confidence {| label := Some "Healthy Rice Leaf"; confidence := "60.00%" |},
                    label {| label := Some "Healthy Rice Leaf"; confidence := "60.00%" |},
                    displayed_advice
                      (label {| label := Some "Healthy Rice Leaf"; confidence := "60.00%" |})) |}
  ∧ (∀ name,
       label {| label := Some "Healthy Rice Leaf"; confidence := "60.00%" |} = Some name →
       DISEASE_ADVICE !! name
       = Some (displayed_advice
                 (label {| label := Some "Healthy Rice Leaf"; confidence := "60.00%" |}))).
Proof.
  apply (render_after_success sample_host _ sample_model "file:///a.jpg").
  - reflexivity.
  - reflexivity.
  - discriminate.
  - vm_compute. reflexivity.
Defined.

(** X25.  A request whose pipeline fails changes nothing on the screen
    but the state of the button: the view is the one of the state before
    the request with [loading] reset (the alert is shown over it). *)
Theorem render_after_failure (h : Host) (st : State) (m : TensorflowModel)
    (image : string) (e : error) :
  model st = Some m → selectedImage st = Some image → image ≠ EmptyString →
  analyzeImage_try h m image = inl e →
  render (analyzeImage h st) = render (setLoading false st).
Proof.
  intros Hmodel Himage Hne Htry.
  unfold analyzeImage, analyzeImage_begin.
  rewrite Hmodel, Himage, (truthy_Some image Hne).
  rewrite (analyzeImage_resume_failure h _ _ e) by exact Htry.
  reflexivity.
Qed.

Lemma render_after_failure_witness :
  render (analyzeImage broken_decoder_host
            (handleImageResult (Picked "file:///a.jpg") ready_state))
  = render (setLoading false (handleImageResult (Picked "file:///a.jpg") ready_state)).
Proof.
  apply (render_after_failure broken_decoder_host _ sample_model "file:///a.jpg"
           (Error "SOI not found")).
  - reflexivity.
  - reflexivity.
  - discriminate.
  - reflexivity.
Defined.

(* ===================================================================== *)
(** * Properties of the earlier [App] *)
(* ===================================================================== *)

(** The two versions of the pipeline differ in what they compute once the
    call of [Math.max] has returned: they fail together, with the same
    error. *)
Lemma Legacy_analyzeImage_try_fails (h : Host) (m : TensorflowModel) (image : string)
    (e : error) :
  Legacy.analyzeImage_try h m image = inl e ↔ analyzeImage_try h m image = inl e.
Proof.
  unfold Legacy.analyzeImage_try, analyzeImage_try.
  destruct (manipulateAsync h image) as [?|manipResult]; [done|]. simpl.
  destruct (readAsStringAsync h manipResult) as [?|base64]; [done|]. simpl.
  destruct (jpeg_decode h base64) as [?|rawData]; [done|]. simpl.
  destruct (run m [encode rawData]) as [?|outputs]; [done|]. simpl.
  destruct (first_output outputs) as [?|probabilities]; [done|]. simpl.
  destruct (N.leb_spec (N.of_nat (length probabilities)) (argument_limit h)).
  - by rewrite interpret_call_within, Legacy_interpret_call_within.
  - by rewrite interpret_call_beyond, Legacy_interpret_call_beyond.
Qed.

(** X26.  In the earlier [App] too, a stage of the pipeline that fails
    ends the request with the single alert "Could not analyze image.",
    the result shown before is kept, and [isProcessing] is reset. *)
Theorem Legacy_pipeline_failure_is_one_alert (h : Host) (st : Legacy.State)
    (m : TensorflowModel) (image : string) (e : error) :
  Legacy.tflite_model st = Some m → Legacy.imageUri st = Some image →
  image ≠ EmptyString → stage_fails h m image e →
  Legacy.result (Legacy.analyzeImage h st) = Legacy.result st
  ∧ Legacy.alerts (Legacy.analyzeImage h st)
    = Legacy.alerts st ++ [("Error", "Could not analyze image.")]
  ∧ Legacy.imageUri (Legacy.analyzeImage h st) = Legacy.imageUri st
  ∧ Legacy.isProcessing (Legacy.analyzeImage h st) = false.
Proof.
  intros Hmodel Himage Hne Hfail.
  apply analyzeImage_try_fails, Legacy_analyzeImage_try_fails in Hfail.
  unfold Legacy.analyzeImage.
  rewrite Hmodel, Himage, (truthy_Some image Hne), Hfail. done.
Qed.

Lemma Legacy_pipeline_failure_is_one_alert_witness :
  Legacy.result (Legacy.analyzeImage broken_decoder_host Legacy_selected_state)
  = Legacy.result Legacy_selected_state
  ∧ Legacy.alerts (Legacy.analyzeImage broken_decoder_host Legacy_selected_state)
    = Legacy.alerts Legacy_selected_state ++ [("Error", "Could not analyze image.")]
  ∧ Legacy.imageUri (Legacy.analyzeImage broken_decoder_host Legacy_selected_state)
    = Legacy.imageUri Legacy_selected_state
  ∧ Legacy.isProcessing (Legacy.analyzeImage broken_decoder_host Legacy_selected_state)
    = false.
Proof.
  apply (Legacy_pipeline_failure_is_one_alert broken_decoder_host Legacy_selected_state
           sample_model "file:///a.jpg" (Error "SOI not found")).
  - reflexivity.
  - reflexivity.
  - discriminate.
  - right. exists "file:///a.jpg". split; [reflexivity|]. right.
    exists "file:///a.jpg". split; [reflexivity|]. left. reflexivity.
Defined.

(** X27.  The earlier [App] returns silently when the model or the image
    is missing: the state is unchanged and, unlike the later [App], no
    alert is shown. *)
Theorem Legacy_analyzeImage_not_ready (h : Host) (st : Legacy.State) :
  Legacy.tflite_model st = None ∨ truthy (Legacy.imageUri st) = None →
  Legacy.analyzeImage h st = st.
Proof.
  intros Hguard. unfold Legacy.analyzeImage.
  destruct Hguard as [-> | ->]; [reflexivity|].
  by destruct (Legacy.tflite_model st).
Qed.

Lemma Legacy_analyzeImage_not_ready_witness :
  Legacy.analyzeImage sample_host Legacy_loading_state = Legacy_loading_state.
Proof.
  apply (Legacy_analyzeImage_not_ready sample_host Legacy_loading_state).
  left. reflexivity.
Defined.

(** X28.  The two versions of [App] compute the same diagnosis: on a
    non-empty score vector with no NaN whose maximum is finite and below
    10^19 in absolute value, reading the confidence back at the index
    found gives the same label and the same confidence as keeping the
    maximum. *)
Theorem Legacy_diagnosis_agrees (f : Q → string) (scores : list number) (m : Q) :
  scores ≠ [] → no_NaN scores →
  Math_max scores = Num m → (Qabs (m * 100) < 10 ^ 21)%Q →
  Legacy.interpret f scores = interpret f scores.
Proof. apply Legacy_interpret_agrees. Qed.

Lemma Legacy_diagnosis_agrees_witness :
  Legacy.interpret sample_Number_toString spec_scores
  = interpret sample_Number_toString spec_scores.
Proof.
  apply (Legacy_diagnosis_agrees sample_Number_toString spec_scores
           (10066330 # 16777216)).
  - discriminate.
  - unfold no_NaN, spec_scores. repeat constructor.
  - reflexivity.
  - reflexivity.
Defined.

(* ===================================================================== *)
(** * One more property of the tensor encoder *)
(* ===================================================================== *)

(** X30.  Whatever the length of the buffer, the tensor does not depend on
    the alpha bytes: two buffers of the same length that agree at every
    index that is not 3 modulo 4 are encoded alike. *)
Theorem encode_ignores_alpha (data data' : list byte) :
  length data' = length data →
  (∀ i : nat, (i `mod` 4 ≠ 3)%nat → data' !! i = data !! i) →
  encode data' = encode data.
Proof.
  intros Hlen Hsame. apply list_eq. intros j.
  destruct (decide (j < TENSOR_LENGTH)%nat) as [Hj|Hj];
    [|rewrite !lookup_ge_None_2; [reflexivity| |]; rewrite encode_length; lia].
  assert (∃ k c : nat, j = (3 * k + c)%nat ∧ (c < 3)%nat) as (k & c & -> & Hc).
  { exists (j `div` 3)%nat, (j `mod` 3)%nat. split.
    - apply Nat.div_mod_eq.
    - apply Nat.mod_upper_bound. lia. }
  destruct (decide (4 * k < length data)%nat) as [Hd|Hd].
  - rewrite (encode_lookup_pixel data' k c), (encode_lookup_pixel data k c)
      by (done || lia).
    rewrite Hsame; [reflexivity|].
    rewrite Nat.add_comm, Nat.mul_comm, Nat.Div0.mod_add.
    rewrite Nat.mod_small; lia.
  - rewrite (encode_lookup_padding data'), (encode_lookup_padding data);
      [reflexivity|done| |done|]; intros k' Hk'; lia.
Qed.

Lemma encode_ignores_alpha_witness :
  encode ["010"; "020"; "030"; "000"; "040"]%byte
  = encode ["010"; "020"; "030"; "255"; "040"]%byte.
Proof.
  apply (encode_ignores_alpha ["010"; "020"; "030"; "255"; "040"]%byte
           ["010"; "020"; "030"; "000"; "040"]%byte).
  - reflexivity.
  - intros [|[|[|[|[|i]]]]] Hi; try reflexivity. by destruct Hi.
Defined.
